(** * LinkedIn posting agent: a shallow embedding of [linkedin-agent.js]

    The class [LinkedInAgent] is embedded as a record and its methods as
    computations in a small trace-and-exception monad.  Every observable
    action of a method (an axios request, a [fs.readFileSync], a
    [console.log] / [console.error] line, a [schedule.scheduleJob]
    registration) is recorded as an event; what the outside answers (the
    remote API, the file system, the timer facility) is a [World] that may
    depend on everything that happened before. *)

From Stdlib Require Import String Ascii List ZArith Bool.
Import ListNotations.
Local Open Scope string_scope.
Local Open Scope list_scope.

(** * The program *)

(** ** JavaScript values *)

Module Js.

(** The fragment of JavaScript values the agent handles: documents sent to
    and received from the API, strings, and the [Buffer] read from disk.
    An object is the list of its own properties, in literal order. *)
#[warnings="-register-all"]
Inductive jsval : Type :=
| JUndefined
| JNull
| JBool (b : bool)
| JNum (n : Z)
| JStr (s : string)
| JBuffer (bytes : list Byte.byte)
| JArr (items : list jsval)
| JObj (fields : list (string * jsval)).

(** What an axios response carries, as far as the agent reads it. *)
Record HttpResponse : Type := mkResponse {
  status : Z;
  data : jsval
}.

(** A thrown error object, as far as [handleError] inspects it:
    [error.response], [error.request] (only tested for truthiness) and
    [error.message]. *)
Record JsError : Type := mkError {
  response : option HttpResponse;
  request : bool;
  message : string
}.

(** [new Error(msg)]: a plain error, neither [response] nor [request]. *)
Definition Error (msg : string) : JsError :=
  {| response := None; request := false; message := msg |}.

(** The [TypeError] raised by a property read on [undefined] or [null]. *)
Definition TypeError (base key : string) : JsError :=
  Error ("Cannot read properties of " ++ base ++ " (reading '" ++ key ++ "')").

Inductive Outcome (A : Type) : Type :=
| Return (a : A)
| Throw (e : JsError).
Arguments Return {A} a.
Arguments Throw {A} e.

Fixpoint lookup_field (k : string) (fs : list (string * jsval)) : jsval :=
  match fs with
  | [] => JUndefined
  | (k', v) :: rest => if String.eqb k k' then v else lookup_field k rest
  end.

(** Property read [v.k] / [v[k]] for the keys the agent uses (none of them
    is an index or a built-in such as [length]): an object yields the
    property or [undefined], [undefined] and [null] raise, any other value
    yields [undefined]. *)
Definition get_prop (v : jsval) (k : string) : Outcome jsval :=
  match v with
  | JUndefined => Throw (TypeError "undefined" k)
  | JNull => Throw (TypeError "null" k)
  | JObj fs => Return (lookup_field k fs)
  | _ => Return JUndefined
  end.

(** [v === 'lit']. *)
Definition strict_eq_str (v : jsval) (lit : string) : bool :=
  match v with
  | JStr s => String.eqb s lit
  | _ => false
  end.

(** A defaulted parameter [p = d]: the default replaces [undefined] only. *)
Definition default_param (v d : jsval) : jsval :=
  match v with
  | JUndefined => d
  | _ => v
  end.

(** A value of [process.env]: a string or absent. *)
Definition of_env (v : option string) : jsval :=
  match v with
  | Some s => JStr s
  | None => JUndefined
  end.

(** [`${v}`] for a value of [process.env]. *)
Definition template (v : option string) : string :=
  match v with
  | Some s => s
  | None => "undefined"
  end.

(** Truthiness of a value of [process.env]: absent and [''] are falsy. *)
Definition truthy_env (v : option string) : bool :=
  match v with
  | Some s => negb (String.eqb s "")
  | None => false
  end.

(** A [Date]: a time value in milliseconds, or [Invalid Date]. *)
Inductive JsDate : Type :=
| ValidDate (ms : Z)
| InvalidDate.

End Js.
Export Js.

(** ** Requests, events, and the outside world *)

Inductive HttpMethod : Type := GET | POST | PUT.

Definition HttpMethod_eqb (m1 m2 : HttpMethod) : bool :=
  match m1, m2 with
  | GET, GET | POST, POST | PUT, PUT => true
  | _, _ => false
  end.

(** One axios call: [axios.get(url, {headers})],
    [axios.post(url, body, {headers})] or [axios.put(url, body, {headers})]. *)
Record Request : Type := mkRequest {
  req_method : HttpMethod;
  req_url : jsval;
  req_body : jsval;
  req_headers : jsval
}.

(** The instance state set by the constructor. *)
Record LinkedInAgent : Type := mkAgent {
  accessToken : option string;
  personURN : option string;
  apiVersion : string;
  baseURL : string
}.

(** The arrow function handed to [schedule.scheduleJob]: it closes over
    [this] and [postConfig]. *)
Record JobClosure : Type := mkJob {
  job_this : LinkedInAgent;
  job_postConfig : jsval
}.

Inductive Event : Type :=
| ENet (r : Request)
| EReadFile (path : jsval)
| ELog (args : list jsval)
| EError (args : list jsval)
| ESchedule (at_time : JsDate) (job : JobClosure).

(** The collaborators outside the agent.  Each answer may depend on the
    events so far. *)
Record World : Type := mkWorld {
  axios_request : list Event -> Request -> JsError + HttpResponse;
  readFileSync : list Event -> jsval -> JsError + list Byte.byte;
  scheduleJob : list Event -> JsDate -> JobClosure -> JsError + jsval;
  date_toString : JsDate -> string
}.

(** ** The monad of agent computations *)

Definition M (A : Type) : Type :=
  World -> list Event -> Outcome A * list Event.

Definition ret {A} (a : A) : M A := fun _ h => (Return a, h).

Definition throw {A} (e : JsError) : M A := fun _ h => (Throw e, h).

Definition bind {A B} (m : M A) (k : A -> M B) : M B :=
  fun w h =>
    match m w h with
    | (Return a, h') => k a w h'
    | (Throw e, h') => (Throw e, h')
    end.

(** [try { m } catch (error) { handler(error) }]. *)
Definition try_catch {A} (m : M A) (handler : JsError -> M A) : M A :=
  fun w h =>
    match m w h with
    | (Return a, h') => (Return a, h')
    | (Throw e, h') => handler e w h'
    end.

Definition lift {A} (o : Outcome A) : M A := fun _ h => (o, h).

Definition emit (e : Event) : M unit := fun _ h => (Return tt, h ++ [e]).

Declare Scope js_scope.
Delimit Scope js_scope with js.
Notation "x <- m ;; k" := (bind m (fun x => k))
  (at level 61, m at next level, right associativity) : js_scope.
Notation "m ;; k" := (bind m (fun _ => k))
  (at level 61, right associativity) : js_scope.
Local Open Scope js_scope.

Definition console_log (args : list jsval) : M unit := emit (ELog args).
Definition console_error (args : list jsval) : M unit := emit (EError args).

Definition axios (r : Request) : M HttpResponse :=
  fun w h =>
    match axios_request w h r with
    | inl e => (Throw e, h ++ [ENet r])
    | inr resp => (Return resp, h ++ [ENet r])
    end.

Definition fs_readFileSync (path : jsval) : M jsval :=
  fun w h =>
    match readFileSync w h path with
    | inl e => (Throw e, h ++ [EReadFile path])
    | inr bytes => (Return (JBuffer bytes), h ++ [EReadFile path])
    end.

Definition schedule_scheduleJob (t : JsDate) (job : JobClosure) : M jsval :=
  fun w h =>
    match scheduleJob w h t job with
    | inl e => (Throw e, h ++ [ESchedule t job])
    | inr handle => (Return handle, h ++ [ESchedule t job])
    end.

Definition render_date (t : JsDate) : M string :=
  fun w h => (Return (date_toString w t), h).

(** Running from an empty history. *)
Definition run {A} (m : M A) (w : World) : Outcome A * list Event := m w [].

(** ** The class [LinkedInAgent] *)

(** [process.env], as far as the constructor reads it. *)
Record ProcessEnv : Type := mkEnv {
  LINKEDIN_ACCESS_TOKEN : option string;
  LINKEDIN_PERSON_URN : option string
}.

Definition new_LinkedInAgent (env : ProcessEnv) : LinkedInAgent :=
  {| accessToken := LINKEDIN_ACCESS_TOKEN env;
     personURN := LINKEDIN_PERSON_URN env;
     apiVersion := "202311";
     baseURL := "https://api.linkedin.com/v2" |}.

Section Methods.

Variable this : LinkedInAgent.

Definition validateConfig : M unit :=
  if negb (truthy_env (accessToken this)) then
    throw (Error "LINKEDIN_ACCESS_TOKEN is not set in .env file")
  else if negb (truthy_env (personURN this)) then
    throw (Error "LINKEDIN_PERSON_URN is not set in .env file")
  else ret tt.

Definition getHeaders : jsval :=
  JObj [ ("Authorization", JStr ("Bearer " ++ template (accessToken this)));
         ("Content-Type", JStr "application/json");
         ("X-Restli-Protocol-Version", JStr "2.0.0");
         ("LinkedIn-Version", JStr (apiVersion this)) ].

Definition handleError {A} (error : JsError) : M A :=
  (match response error with
   | Some resp =>
       console_error [JStr "LinkedIn API Error:"] ;;
       console_error [JStr "Status:"; JNum (status resp)] ;;
       console_error [JStr "Message:"; data resp]
   | None =>
       if request error then
         console_error [JStr "No response received from LinkedIn API"] ;;
         console_error [JStr (message error)]
       else
         console_error [JStr "Error:"; JStr (message error)]
   end) ;;
  throw error.

(** The endpoint every post is created on. *)
Definition ugcPosts_url : jsval := JStr (baseURL this ++ "/ugcPosts").

Definition create_post_request (postData : jsval) : Request :=
  {| req_method := POST; req_url := ugcPosts_url;
     req_body := postData; req_headers := getHeaders |}.

(** The object literal [postData] of [postTextUpdate]. *)
Definition textPostData (text visibility : jsval) : jsval :=
  JObj [ ("author", of_env (personURN this));
         ("lifecycleState", JStr "PUBLISHED");
         ("specificContent", JObj [
            ("com.linkedin.ugc.ShareContent", JObj [
               ("shareCommentary", JObj [ ("text", text) ]);
               ("shareMediaCategory", JStr "NONE") ]) ]);
         ("visibility", JObj [
            ("com.linkedin.ugc.MemberNetworkVisibility", visibility) ]) ].

Definition postTextUpdate_body (text visibility : jsval) : M jsval :=
  let visibility := default_param visibility (JStr "PUBLIC") in
  validateConfig ;;
  let postData := textPostData text visibility in
  response <- axios (create_post_request postData) ;;
  console_log [JStr "Successfully posted to LinkedIn!"] ;;
  id <- lift (get_prop (data response) "id") ;;
  console_log [JStr "Post ID:"; id] ;;
  ret (data response).

Definition postTextUpdate (text visibility : jsval) : M jsval :=
  try_catch (postTextUpdate_body text visibility) handleError.

(** The object literal [postData] of [postArticle]. *)
Definition articlePostData
    (text articleUrl articleTitle articleDescription visibility : jsval)
    : jsval :=
  JObj [ ("author", of_env (personURN this));
         ("lifecycleState", JStr "PUBLISHED");
         ("specificContent", JObj [
            ("com.linkedin.ugc.ShareContent", JObj [
               ("shareCommentary", JObj [ ("text", text) ]);
               ("shareMediaCategory", JStr "ARTICLE");
               ("media", JArr [
                  JObj [ ("status", JStr "READY");
                         ("originalUrl", articleUrl);
                         ("title", JObj [ ("text", articleTitle) ]);
                         ("description",
                          JObj [ ("text", articleDescription) ]) ] ]) ]) ]);
         ("visibility", JObj [
            ("com.linkedin.ugc.MemberNetworkVisibility", visibility) ]) ].

Definition postArticle_body
    (text articleUrl articleTitle articleDescription visibility : jsval)
    : M jsval :=
  let visibility := default_param visibility (JStr "PUBLIC") in
  validateConfig ;;
  let postData :=
    articlePostData text articleUrl articleTitle articleDescription
                    visibility in
  response <- axios (create_post_request postData) ;;
  console_log [JStr "Successfully posted article to LinkedIn!"] ;;
  id <- lift (get_prop (data response) "id") ;;
  console_log [JStr "Post ID:"; id] ;;
  ret (data response).

Definition postArticle
    (text articleUrl articleTitle articleDescription visibility : jsval)
    : M jsval :=
  try_catch
    (postArticle_body text articleUrl articleTitle articleDescription
                      visibility)
    handleError.

Definition register_request : Request :=
  {| req_method := POST;
     req_url := JStr "https://api.linkedin.com/v2/assets?action=registerUpload";
     req_body :=
       JObj [ ("registerUploadRequest", JObj [
                 ("recipes",
                  JArr [ JStr "urn:li:digitalmediaRecipe:feedshare-image" ]);
                 ("owner", of_env (personURN this));
                 ("serviceRelationships", JArr [
                    JObj [ ("relationshipType", JStr "OWNER");
                           ("identifier",
                            JStr "urn:li:userGeneratedContent") ] ]) ]) ];
     req_headers := getHeaders |}.

Definition registerImageUpload : M jsval :=
  response <- axios register_request ;;
  ret (data response).

Definition upload_request (uploadUrl imageBuffer : jsval) : Request :=
  {| req_method := PUT;
     req_url := uploadUrl;
     req_body := imageBuffer;
     req_headers :=
       JObj [ ("Authorization",
               JStr ("Bearer " ++ template (accessToken this)));
              ("Content-Type", JStr "application/octet-stream") ] |}.

Definition uploadImage (uploadUrl imagePath : jsval) : M unit :=
  imageBuffer <- fs_readFileSync imagePath ;;
  axios (upload_request uploadUrl imageBuffer) ;;
  ret tt.

(** The object literal [postData] of [postImage]. *)
Definition imagePostData (text visibility asset : jsval) : jsval :=
  JObj [ ("author", of_env (personURN this));
         ("lifecycleState", JStr "PUBLISHED");
         ("specificContent", JObj [
            ("com.linkedin.ugc.ShareContent", JObj [
               ("shareCommentary", JObj [ ("text", text) ]);
               ("shareMediaCategory", JStr "IMAGE");
               ("media", JArr [
                  JObj [ ("status", JStr "READY");
                         ("media", asset) ] ]) ]) ]);
         ("visibility", JObj [
            ("com.linkedin.ugc.MemberNetworkVisibility", visibility) ]) ].

(** [registerUploadResponse.value.uploadMechanism[...].uploadUrl]. *)
Definition read_uploadUrl (registerUploadResponse : jsval) : Outcome jsval :=
  match get_prop registerUploadResponse "value" with
  | Throw e => Throw e
  | Return value =>
      match get_prop value "uploadMechanism" with
      | Throw e => Throw e
      | Return uploadMechanism =>
          match get_prop uploadMechanism
                  "com.linkedin.digitalmedia.uploading.MediaUploadHttpRequest"
          with
          | Throw e => Throw e
          | Return mechanism => get_prop mechanism "uploadUrl"
          end
      end
  end.

(** [registerUploadResponse.value.asset]. *)
Definition read_asset (registerUploadResponse : jsval) : Outcome jsval :=
  match get_prop registerUploadResponse "value" with
  | Throw e => Throw e
  | Return value => get_prop value "asset"
  end.

Definition postImage_body (text imagePath visibility : jsval) : M jsval :=
  let visibility := default_param visibility (JStr "PUBLIC") in
  validateConfig ;;
  (* Step 1: Register upload *)
  registerUploadResponse <- registerImageUpload ;;
  uploadUrl <- lift (read_uploadUrl registerUploadResponse) ;;
  asset <- lift (read_asset registerUploadResponse) ;;
  (* Step 2: Upload image *)
  uploadImage uploadUrl imagePath ;;
  (* Step 3: Create post with image *)
  let postData := imagePostData text visibility asset in
  response <- axios (create_post_request postData) ;;
  console_log [JStr "Successfully posted image to LinkedIn!"] ;;
  id <- lift (get_prop (data response) "id") ;;
  console_log [JStr "Post ID:"; id] ;;
  ret (data response).

Definition postImage (text imagePath visibility : jsval) : M jsval :=
  try_catch (postImage_body text imagePath visibility) handleError.

Definition profile_request : Request :=
  {| req_method := GET; req_url := JStr (baseURL this ++ "/me");
     req_body := JUndefined; req_headers := getHeaders |}.

Definition getUserProfile_body : M jsval :=
  validateConfig ;;
  response <- axios profile_request ;;
  console_log [JStr "User Profile:"; data response] ;;
  ret (data response).

Definition getUserProfile : M jsval :=
  try_catch getUserProfile_body handleError.

End Methods.

(** The body of the arrow function scheduled by [schedulePost]. *)
Definition run_job (job : JobClosure) : M jsval :=
  let this := job_this job in
  let postConfig := job_postConfig job in
  console_log [JStr "Executing scheduled post..."] ;;
  type <- lift (get_prop postConfig "type") ;;
  if strict_eq_str type "text" then
    text <- lift (get_prop postConfig "text") ;;
    visibility <- lift (get_prop postConfig "visibility") ;;
    postTextUpdate this text visibility ;;
    ret JUndefined
  else
    type <- lift (get_prop postConfig "type") ;;
    if strict_eq_str type "article" then
      text <- lift (get_prop postConfig "text") ;;
      articleUrl <- lift (get_prop postConfig "articleUrl") ;;
      articleTitle <- lift (get_prop postConfig "articleTitle") ;;
      articleDescription <-
        lift (get_prop postConfig "articleDescription") ;;
      visibility <- lift (get_prop postConfig "visibility") ;;
      postArticle this text articleUrl articleTitle articleDescription
                  visibility ;;
      ret JUndefined
    else
      type <- lift (get_prop postConfig "type") ;;
      if strict_eq_str type "image" then
        text <- lift (get_prop postConfig "text") ;;
        imagePath <- lift (get_prop postConfig "imagePath") ;;
        visibility <- lift (get_prop postConfig "visibility") ;;
        postImage this text imagePath visibility ;;
        ret JUndefined
      else
        ret JUndefined.

Definition schedulePost (this : LinkedInAgent) (postConfig : jsval)
    (scheduledTime : JsDate) : M jsval :=
  shown <- render_date scheduledTime ;;
  console_log [JStr ("Post scheduled for " ++ shown)] ;;
  job <- schedule_scheduleJob scheduledTime (mkJob this postConfig) ;;
  ret job.

(** ** The four Publisher operations, as one family *)

Inductive PublisherOp : Type :=
| OpPostTextUpdate (text visibility : jsval)
| OpPostArticle
    (text articleUrl articleTitle articleDescription visibility : jsval)
| OpPostImage (text imagePath visibility : jsval)
| OpGetUserProfile.

(** The method call [this.op(...)]. *)
Definition perform (this : LinkedInAgent) (op : PublisherOp) : M jsval :=
  match op with
  | OpPostTextUpdate text visibility => postTextUpdate this text visibility
  | OpPostArticle text url title description visibility =>
      postArticle this text url title description visibility
  | OpPostImage text imagePath visibility =>
      postImage this text imagePath visibility
  | OpGetUserProfile => getUserProfile this
  end.

(** The [try] block of the method, without its [catch]. *)
Definition perform_body (this : LinkedInAgent) (op : PublisherOp)
    : M jsval :=
  match op with
  | OpPostTextUpdate text visibility =>
      postTextUpdate_body this text visibility
  | OpPostArticle text url title description visibility =>
      postArticle_body this text url title description visibility
  | OpPostImage text imagePath visibility =>
      postImage_body this text imagePath visibility
  | OpGetUserProfile => getUserProfile_body this
  end.

(** * What the statements are written with *)

(** ** Observations on a trace *)

Fixpoint net_calls (tr : list Event) : list Request :=
  match tr with
  | [] => []
  | ENet r :: rest => r :: net_calls rest
  | _ :: rest => net_calls rest
  end.

Definition is_prefix {A} (l full : list A) : Prop :=
  exists rest, full = l ++ rest.

(** A request to the create-post endpoint of the agent. *)
Definition is_create_post (this : LinkedInAgent) (r : Request) : bool :=
  HttpMethod_eqb (req_method r) POST &&
  strict_eq_str (req_url r) (baseURL this ++ "/ugcPosts").

(** The documents sent to the create-post endpoint. *)
Definition created_payloads (this : LinkedInAgent) (tr : list Event)
    : list jsval :=
  map req_body (filter (is_create_post this) (net_calls tr)).

(** Reading along a path of property names. *)
Fixpoint get_path (v : jsval) (path : list string) : Outcome jsval :=
  match path with
  | [] => Return v
  | k :: rest =>
      match get_prop v k with
      | Return v' => get_path v' rest
      | Throw e => Throw e
      end
  end.

(** The error an outside call answered with, when the event [ev] happened
    after the events [before]. *)
Definition failed_call (w : World) (before : list Event) (ev : Event)
    : option JsError :=
  match ev with
  | ENet r =>
      match axios_request w before r with
      | inl e => Some e
      | inr _ => None
      end
  | EReadFile path =>
      match readFileSync w before path with
      | inl e => Some e
      | inr _ => None
      end
  | _ => None
  end.

(** A credential that is missing or empty. *)
Definition missing_or_empty (v : option string) : Prop :=
  v = None \/ v = Some "".

Definition valid_config (this : LinkedInAgent) : Prop :=
  ~ missing_or_empty (accessToken this) /\
  ~ missing_or_empty (personURN this).

(** The three failure shapes of the error-handling design. *)
Inductive FailureShape : Type :=
| ApiError (status_code : Z) (body : jsval)
| NetworkError
| ClientError.

Definition classify (e : JsError) : FailureShape :=
  match response e with
  | Some resp => ApiError (status resp) (data resp)
  | None => if request e then NetworkError else ClientError
  end.

(** The diagnostic lines that belong to an error, by its shape. *)
Definition diagnostic (e : JsError) : list Event :=
  match classify e with
  | ApiError status_code body =>
      [ EError [JStr "LinkedIn API Error:"];
        EError [JStr "Status:"; JNum status_code];
        EError [JStr "Message:"; body] ]
  | NetworkError =>
      [ EError [JStr "No response received from LinkedIn API"];
        EError [JStr (message e)] ]
  | ClientError =>
      [ EError [JStr "Error:"; JStr (message e)] ]
  end.

Definition ShareContent : list string :=
  ["specificContent"; "com.linkedin.ugc.ShareContent"].

Definition PUBLIC : jsval := JStr "PUBLIC".

Fixpoint last_char (s : string) : option ascii :=
  match s with
  | EmptyString => None
  | String c EmptyString => Some c
  | String _ s' => last_char s'
  end.

(** The three calls of an image post, in order: register, upload,
    create. *)
Definition image_calls (this : LinkedInAgent) (text visibility : jsval)
    (uploadUrl : jsval) (bytes : list Byte.byte) (asset : jsval)
    : list Request :=
  [ register_request this;
    upload_request this uploadUrl (JBuffer bytes);
    create_post_request this
      (imagePostData this text (default_param visibility (JStr "PUBLIC"))
                     asset) ].

(** The events of the binary upload phase: reading the file and the PUT. *)
Definition upload_step (ev : Event) : bool :=
  match ev with
  | EReadFile _ => true
  | ENet r => HttpMethod_eqb (req_method r) PUT
  | _ => false
  end.

(** The file cannot be read at the moment [postImage] comes to it. *)
Definition unreadable (this : LinkedInAgent) (imagePath : jsval) (w : World)
    (e : JsError) : Prop :=
  readFileSync w [ENet (register_request this)] imagePath = inl e.

(** ** The runs of [postImage] *)

Section ImageRun.

Variables (this : LinkedInAgent) (text imagePath visibility : jsval).
Variable w : World.

Let vis : jsval := default_param visibility (JStr "PUBLIC").
Let reg : Request := register_request this.

(** Phase 1 is over: the registration call answered [r1], whose document
    holds an upload URL and an asset. *)
Definition registered (r1 : HttpResponse) (uploadUrl asset : jsval) : Prop :=
  valid_config this /\
  axios_request w [] reg = inr r1 /\
  read_uploadUrl (data r1) = Return uploadUrl /\
  read_asset (data r1) = Return asset.

(** The file has been read after phase 1. *)
Definition file_read (bytes : list Byte.byte) : Prop :=
  readFileSync w [ENet reg] imagePath = inr bytes.

(** Phase 2 is over: the bytes were accepted by the upload URL. *)
Definition uploaded (uploadUrl : jsval) (bytes : list Byte.byte) : Prop :=
  file_read bytes /\
  exists r2,
    axios_request w [ENet reg; EReadFile imagePath]
      (upload_request this uploadUrl (JBuffer bytes)) = inr r2.

Definition upload_of (uploadUrl : jsval) (bytes : list Byte.byte) : Event :=
  ENet (upload_request this uploadUrl (JBuffer bytes)).

Definition create_of (asset : jsval) : Event :=
  ENet (create_post_request this (imagePostData this text vis asset)).

(** The events of a run that got as far as sending the post. *)
Definition pipeline (uploadUrl : jsval) (bytes : list Byte.byte)
    (asset : jsval) : list Event :=
  [ ENet reg; EReadFile imagePath; upload_of uploadUrl bytes;
    create_of asset ].

(** All the ways the [try] block of [postImage] can go, in the order of
    its steps. *)
Inductive image_run : Outcome jsval -> list Event -> Prop :=
| run_invalid_config e :
    validateConfig this w [] = (Throw e, []) ->
    image_run (Throw e) []
| run_register_failed e :
    valid_config this ->
    axios_request w [] reg = inl e ->
    image_run (Throw e) [ENet reg]
| run_no_uploadUrl r1 e :
    valid_config this ->
    axios_request w [] reg = inr r1 ->
    read_uploadUrl (data r1) = Throw e ->
    image_run (Throw e) [ENet reg]
| run_no_asset r1 uploadUrl e :
    valid_config this ->
    axios_request w [] reg = inr r1 ->
    read_uploadUrl (data r1) = Return uploadUrl ->
    read_asset (data r1) = Throw e ->
    image_run (Throw e) [ENet reg]
| run_read_failed r1 uploadUrl asset e :
    registered r1 uploadUrl asset ->
    readFileSync w [ENet reg] imagePath = inl e ->
    image_run (Throw e) [ENet reg; EReadFile imagePath]
| run_upload_failed r1 uploadUrl asset bytes e :
    registered r1 uploadUrl asset ->
    file_read bytes ->
    axios_request w [ENet reg; EReadFile imagePath]
      (upload_request this uploadUrl (JBuffer bytes)) = inl e ->
    image_run (Throw e)
      [ENet reg; EReadFile imagePath; upload_of uploadUrl bytes]
| run_create_failed r1 uploadUrl asset bytes e :
    registered r1 uploadUrl asset ->
    uploaded uploadUrl bytes ->
    axios_request w
      [ENet reg; EReadFile imagePath; upload_of uploadUrl bytes]
      (create_post_request this (imagePostData this text vis asset))
      = inl e ->
    image_run (Throw e) (pipeline uploadUrl bytes asset)
| run_no_id r1 uploadUrl asset bytes r3 e :
    registered r1 uploadUrl asset ->
    uploaded uploadUrl bytes ->
    axios_request w
      [ENet reg; EReadFile imagePath; upload_of uploadUrl bytes]
      (create_post_request this (imagePostData this text vis asset))
      = inr r3 ->
    get_prop (data r3) "id" = Throw e ->
    image_run (Throw e)
      (pipeline uploadUrl bytes asset
       ++ [ELog [JStr "Successfully posted image to LinkedIn!"]])
| run_posted r1 uploadUrl asset bytes r3 id :
    registered r1 uploadUrl asset ->
    uploaded uploadUrl bytes ->
    axios_request w
      [ENet reg; EReadFile imagePath; upload_of uploadUrl bytes]
      (create_post_request this (imagePostData this text vis asset))
      = inr r3 ->
    get_prop (data r3) "id" = Return id ->
    image_run (Return (data r3))
      (pipeline uploadUrl bytes asset
       ++ [ELog [JStr "Successfully posted image to LinkedIn!"];
           ELog [JStr "Post ID:"; id]]).

End ImageRun.

(** ** Scheduled jobs *)

Definition executing : Event := ELog [JStr "Executing scheduled post..."].

(** [postConfig.k] once [postConfig.type] has been read. *)
Definition field (postConfig : jsval) (k : string) : jsval :=
  match get_prop postConfig k with
  | Return v => v
  | Throw _ => JUndefined
  end.

(** The Publisher call a job makes for its [postConfig], if any. *)
Definition job_operation (postConfig : jsval) : option PublisherOp :=
  match get_prop postConfig "type" with
  | Throw _ => None
  | Return type =>
      if strict_eq_str type "text" then
        Some (OpPostTextUpdate (field postConfig "text")
                               (field postConfig "visibility"))
      else if strict_eq_str type "article" then
        Some (OpPostArticle (field postConfig "text")
                            (field postConfig "articleUrl")
                            (field postConfig "articleTitle")
                            (field postConfig "articleDescription")
                            (field postConfig "visibility"))
      else if strict_eq_str type "image" then
        Some (OpPostImage (field postConfig "text")
                          (field postConfig "imagePath")
                          (field postConfig "visibility"))
      else None
  end.

(** The job body awaits its Publisher call and returns nothing. *)
Definition awaited (r : Outcome jsval * list Event)
    : Outcome jsval * list Event :=
  match r with
  | (Return _, tr) => (Return JUndefined, tr)
  | (Throw e, tr) => (Throw e, tr)
  end.

(** ** Stub collaborators, for running the agent on concrete inputs *)

Module Stub.

Definition register_url : string :=
  "https://api.linkedin.com/v2/assets?action=registerUpload".

(** The document a successful registration answers with. *)
Definition registration (uploadUrl asset : jsval) : jsval :=
  JObj [ ("value", JObj [
            ("uploadMechanism", JObj [
               ("com.linkedin.digitalmedia.uploading.MediaUploadHttpRequest",
                JObj [ ("uploadUrl", uploadUrl) ]) ]);
            ("asset", asset) ]) ].

Definition ENOENT : JsError :=
  Error "ENOENT: no such file or directory, open '/tmp/x.jpg'".

Definition ENOTFOUND : JsError :=
  {| response := None; request := true;
     message := "getaddrinfo ENOTFOUND api.linkedin.com" |}.

Definition unauthorized : JsError :=
  {| response := Some (mkResponse 401 (JObj [("message", JStr "Invalid access token")]));
     request := true;
     message := "Request failed with status code 401" |}.

(** A remote API that answers every call successfully. *)
Definition api_ok (r : Request) : JsError + HttpResponse :=
  match req_method r with
  | GET => inr (mkResponse 200 (JObj [("id", JStr "abc123")]))
  | PUT => inr (mkResponse 201 (JStr ""))
  | POST =>
      if strict_eq_str (req_url r) register_url then
        inr (mkResponse 200
               (registration (JStr "https://u")
                             (JStr "urn:li:digitalmediaAsset:1")))
      else inr (mkResponse 201 (JObj [("id", JStr "urn:li:share:2")]))
  end.

(** As [api_ok], but the binary upload is refused. *)
Definition api_upload_refused (r : Request) : JsError + HttpResponse :=
  match req_method r with
  | PUT => inl unauthorized
  | _ => api_ok r
  end.

Definition timers (t : JsDate) : JsError + jsval :=
  inr (JObj [("name", JStr "<Anonymous Job 1>")]).

Definition show_date (t : JsDate) : string :=
  match t with
  | ValidDate _ => "Mon Nov 10 2025 14:00:00 GMT+0000 (Coordinated Universal Time)"
  | InvalidDate => "Invalid Date"
  end.

(** Everything succeeds; every file holds three bytes. *)
Definition all_ok : World :=
  {| axios_request := fun _ r => api_ok r;
     readFileSync := fun _ _ => inr [Byte.xff; Byte.xd8; Byte.xff];
     scheduleJob := fun _ t _ => timers t;
     date_toString := show_date |}.

(** The remote API is fine but no file can be read. *)
Definition no_file : World :=
  {| axios_request := fun _ r => api_ok r;
     readFileSync := fun _ _ => inl ENOENT;
     scheduleJob := fun _ t _ => timers t;
     date_toString := show_date |}.

(** The upload URL refuses the bytes. *)
Definition upload_refused : World :=
  {| axios_request := fun _ r => api_upload_refused r;
     readFileSync := fun _ _ => inr [Byte.xff; Byte.xd8; Byte.xff];
     scheduleJob := fun _ t _ => timers t;
     date_toString := show_date |}.

(** No network at all. *)
Definition offline : World :=
  {| axios_request := fun _ _ => inl ENOTFOUND;
     readFileSync := fun _ _ => inr [Byte.xff; Byte.xd8; Byte.xff];
     scheduleJob := fun _ t _ => timers t;
     date_toString := show_date |}.

(** An agent with both credentials, and one without a token. *)
Definition agent : LinkedInAgent :=
  new_LinkedInAgent
    {| LINKEDIN_ACCESS_TOKEN := Some "tok";
       LINKEDIN_PERSON_URN := Some "urn:li:person:me" |}.

Definition agent_without_token : LinkedInAgent :=
  new_LinkedInAgent
    {| LINKEDIN_ACCESS_TOKEN := None;
       LINKEDIN_PERSON_URN := Some "urn:li:person:me" |}.

Definition agent_other_token : LinkedInAgent :=
  new_LinkedInAgent
    {| LINKEDIN_ACCESS_TOKEN := Some "another token";
       LINKEDIN_PERSON_URN := Some "urn:li:person:me" |}.

(** Every call is answered 200 with an empty document. *)
Definition empty_answers : World :=
  {| axios_request := fun _ _ => inr (mkResponse 200 (JObj []));
     readFileSync := fun _ _ => inr [Byte.xff; Byte.xd8; Byte.xff];
     scheduleJob := fun _ t _ => timers t;
     date_toString := show_date |}.

(** The registration answer has everything but the upload URL. *)
Definition no_uploadUrl : World :=
  {| axios_request := fun _ _ =>
       inr (mkResponse 200
              (JObj [ ("value", JObj [
                         ("uploadMechanism", JObj [
                            ("com.linkedin.digitalmedia.uploading.MediaUploadHttpRequest",
                             JObj []) ]);
                         ("asset", JStr "urn:li:digitalmediaAsset:1") ]) ]));
     readFileSync := fun _ _ => inr [Byte.xff; Byte.xd8; Byte.xff];
     scheduleJob := fun _ t _ => timers t;
     date_toString := show_date |}.

(** A scheduled text post, and a job whose type tag names no post shape. *)
Definition job_later : JobClosure :=
  mkJob agent (JObj [("type", JStr "text"); ("text", JStr "later")]).

Definition video_config : jsval :=
  JObj [("type", JStr "video"); ("text", JStr "later")].

End Stub.

(** ** The requests an operation can send *)

(** The origin of a request found in the trace of an operation. *)
Inductive sent_by (this : LinkedInAgent) (w : World) : Request -> Prop :=
| sent_profile : sent_by this w (profile_request this)
| sent_register : sent_by this w (register_request this)
| sent_create payload : sent_by this w (create_post_request this payload)
| sent_upload r1 uploadUrl bytes :
    axios_request w [] (register_request this) = inr r1 ->
    read_uploadUrl (data r1) = Return uploadUrl ->
    sent_by this w (upload_request this uploadUrl (JBuffer bytes)).

(** ** The command-line interface *)

(** How a command's action ends: [process.exit(code)], the action's promise
    settled, or the process kept alive by the idle [setInterval]. *)
Inductive CliResult : Type :=
| Exited (code : Z)
| Settled (o : Outcome jsval)
| KeptAlive.

Definition Cli : Type := World -> list Event -> CliResult * list Event.

(** [await m;] as the last statement of an action. *)
Definition settle (m : M jsval) : Cli :=
  fun w h =>
    match m w h with
    | (Return _, h') => (Settled (Return JUndefined), h')
    | (Throw e, h') => (Settled (Throw e), h')
    end.

(** [console.error(msg); process.exit(1);]. *)
Definition exit_with (msg : string) : Cli :=
  fun _ h => (Exited 1, h ++ [EError [JStr msg]]).

(** The [options] object commander hands to an action: each flag is a
    string or absent. *)
Record CliOptions : Type := mkOptions {
  opt_text : option string;
  opt_visibility : option string;
  opt_url : option string;
  opt_title : option string;
  opt_description : option string;
  opt_image : option string;
  opt_time : option string
}.

(** [v || '']. *)
Definition or_empty (v : option string) : jsval :=
  if truthy_env v then of_env v else JStr "".

Section Commands.

Variable env : ProcessEnv.
Variable options : CliOptions.

(** [new Date(s)], the host's parser. *)
Variable Date_parse : string -> JsDate.

Definition cli_post : Cli :=
  if negb (truthy_env (opt_text options)) then
    exit_with "Error: --text option is required"
  else
    let agent := new_LinkedInAgent env in
    settle (postTextUpdate agent (of_env (opt_text options))
                           (of_env (opt_visibility options))).

Definition cli_post_article : Cli :=
  if negb (truthy_env (opt_text options))
     || negb (truthy_env (opt_url options))
     || negb (truthy_env (opt_title options)) then
    exit_with "Error: --text, --url, and --title options are required"
  else
    let agent := new_LinkedInAgent env in
    settle (postArticle agent (of_env (opt_text options))
                        (of_env (opt_url options))
                        (of_env (opt_title options))
                        (or_empty (opt_description options))
                        (of_env (opt_visibility options))).

Definition cli_post_image : Cli :=
  if negb (truthy_env (opt_text options))
     || negb (truthy_env (opt_image options)) then
    exit_with "Error: --text and --image options are required"
  else
    let agent := new_LinkedInAgent env in
    settle (postImage agent (of_env (opt_text options))
                      (of_env (opt_image options))
                      (of_env (opt_visibility options))).

Definition cli_profile : Cli :=
  let agent := new_LinkedInAgent env in
  settle (getUserProfile agent).

(** The [postConfig] literal of the [schedule] command. *)
Definition cli_postConfig : jsval :=
  JObj [ ("type", JStr "text");
         ("text", of_env (opt_text options));
         ("visibility", of_env (opt_visibility options)) ].

Definition cli_schedule : Cli :=
  if negb (truthy_env (opt_text options))
     || negb (truthy_env (opt_time options)) then
    exit_with "Error: --text and --time options are required"
  else
    let scheduledTime := Date_parse (template (opt_time options)) in
    match scheduledTime with
    | InvalidDate =>
        exit_with "Error: Invalid datetime format. Use ISO 8601 format."
    | ValidDate _ =>
        let agent := new_LinkedInAgent env in
        fun w h =>
          match schedulePost agent cli_postConfig scheduledTime w h with
          | (Throw e, h') => (Settled (Throw e), h')
          | (Return _, h') =>
              (KeptAlive,
               h' ++ [ELog [JStr ("Scheduled post will run in the "
                                  ++ "background. Keep this process "
                                  ++ "running.")]])
          end
    end.

End Commands.

(** The five commands of the program. *)
Inductive Command : Type :=
| CmdPost | CmdPostArticle | CmdPostImage | CmdProfile | CmdSchedule.

Definition run_command (Date_parse : string -> JsDate) (env : ProcessEnv)
    (cmd : Command) (options : CliOptions) : Cli :=
  match cmd with
  | CmdPost => cli_post env options
  | CmdPostArticle => cli_post_article env options
  | CmdPostImage => cli_post_image env options
  | CmdProfile => cli_profile env
  | CmdSchedule => cli_schedule env options Date_parse
  end.

(** A required flag of the command is missing or empty. *)
Definition lacks_required_flag (cmd : Command) (options : CliOptions)
    : Prop :=
  match cmd with
  | CmdPost => missing_or_empty (opt_text options)
  | CmdPostArticle =>
      missing_or_empty (opt_text options) \/
      missing_or_empty (opt_url options) \/
      missing_or_empty (opt_title options)
  | CmdPostImage =>
      missing_or_empty (opt_text options) \/
      missing_or_empty (opt_image options)
  | CmdProfile => False
  | CmdSchedule =>
      missing_or_empty (opt_text options) \/
      missing_or_empty (opt_time options)
  end.

(** ** The example wrappers of [linkedin-example.js] *)

Section Examples.

(** The module-level [agent]. *)
Variable agent : LinkedInAgent.

Definition newline : string := String (ascii_of_nat 10) EmptyString.

Definition postSimpleUpdate : M jsval :=
  console_log [JStr "Example 1: Posting a simple text update..."] ;;
  try_catch
    (postTextUpdate agent
       (JStr "Hello LinkedIn! This is an automated post from my LinkedIn agent. 🚀")
       (JStr "PUBLIC") ;;
     ret JUndefined)
    (fun error =>
       console_error [JStr "Failed to post update:"; JStr (message error)] ;;
       ret JUndefined).

Definition postArticleExample : M jsval :=
  console_log [JStr (newline ++ "Example 2: Posting an article...")] ;;
  try_catch
    (postArticle agent
       (JStr "Just found this amazing article about automation! Must read for developers.")
       (JStr "https://example.com/automation-guide")
       (JStr "The Complete Guide to Automation")
       (JStr "Learn how to automate your daily tasks and boost productivity.")
       (JStr "PUBLIC") ;;
     ret JUndefined)
    (fun error =>
       console_error [JStr "Failed to post article:"; JStr (message error)] ;;
       ret JUndefined).

Definition postImageExample : M jsval :=
  console_log [JStr (newline ++ "Example 3: Posting an image...")] ;;
  try_catch
    (postImage agent
       (JStr "Check out this awesome visualization! 📊")
       (JStr "./path/to/your/image.jpg")
       (JStr "PUBLIC") ;;
     ret JUndefined)
    (fun error =>
       console_error [JStr "Failed to post image:"; JStr (message error)] ;;
       ret JUndefined).

End Examples.

(** The three wrappers, with the line each prints when its call fails. *)
Inductive Example : Type := Example1 | Example2 | Example3.

Definition run_example (agent : LinkedInAgent) (ex : Example) : M jsval :=
  match ex with
  | Example1 => postSimpleUpdate agent
  | Example2 => postArticleExample agent
  | Example3 => postImageExample agent
  end.

Definition example_call (agent : LinkedInAgent) (ex : Example) : M jsval :=
  match ex with
  | Example1 =>
      postTextUpdate agent
        (JStr "Hello LinkedIn! This is an automated post from my LinkedIn agent. 🚀")
        (JStr "PUBLIC")
  | Example2 =>
      postArticle agent
        (JStr "Just found this amazing article about automation! Must read for developers.")
        (JStr "https://example.com/automation-guide")
        (JStr "The Complete Guide to Automation")
        (JStr "Learn how to automate your daily tasks and boost productivity.")
        (JStr "PUBLIC")
  | Example3 =>
      postImage agent
        (JStr "Check out this awesome visualization! 📊")
        (JStr "./path/to/your/image.jpg")
        (JStr "PUBLIC")
  end.

Definition example_banner (ex : Example) : Event :=
  match ex with
  | Example1 => ELog [JStr "Example 1: Posting a simple text update..."]
  | Example2 => ELog [JStr (newline ++ "Example 2: Posting an article...")]
  | Example3 => ELog [JStr (newline ++ "Example 3: Posting an image...")]
  end.

Definition example_failure_line (ex : Example) (e : JsError) : Event :=
  match ex with
  | Example1 => EError [JStr "Failed to post update:"; JStr (message e)]
  | Example2 => EError [JStr "Failed to post article:"; JStr (message e)]
  | Example3 => EError [JStr "Failed to post image:"; JStr (message e)]
  end.

(** * Facts *)

(** ** Basic facts *)

Lemma truthy_env_false (v : option string) :
  truthy_env v = false <-> missing_or_empty v.
Proof.
  unfold missing_or_empty. destruct v as [s|]; simpl.
  - rewrite negb_false_iff, String.eqb_eq. split.
    + intros ->. now right.
    + intros [H|H]; congruence.
  - split; auto.
Qed.

Lemma truthy_env_true (v : option string) :
  truthy_env v = true <-> ~ missing_or_empty v.
Proof.
  rewrite <- truthy_env_false. destruct (truthy_env v); split; congruence.
Qed.

Lemma valid_config_truthy (this : LinkedInAgent) :
  valid_config this <->
  truthy_env (accessToken this) = true /\ truthy_env (personURN this) = true.
Proof. unfold valid_config. now rewrite !truthy_env_true. Qed.

Lemma validateConfig_valid this w h :
  valid_config this -> validateConfig this w h = (Return tt, h).
Proof.
  rewrite valid_config_truthy. intros [Ht Hu].
  unfold validateConfig. now rewrite Ht, Hu.
Qed.

(** [validateConfig] on an invalid configuration throws one of its two
    errors and touches nothing. *)
Lemma validateConfig_invalid this w h :
  missing_or_empty (accessToken this) \/ missing_or_empty (personURN this) ->
  exists msg,
    validateConfig this w h = (Throw (Error msg), h) /\
    (msg = "LINKEDIN_ACCESS_TOKEN is not set in .env file" \/
     msg = "LINKEDIN_PERSON_URN is not set in .env file").
Proof.
  rewrite <- !truthy_env_false. unfold validateConfig.
  destruct (truthy_env (accessToken this)); simpl.
  - intros [H|H]; [discriminate|]. rewrite H; simpl.
    eexists; split; [reflexivity|now right].
  - intros _. eexists; split; [reflexivity|now left].
Qed.

(** What the [catch] block does with an error. *)
Lemma handleError_spec {A} (e : JsError) w h :
  @handleError A e w h = (Throw e, h ++ diagnostic e).
Proof.
  unfold handleError, diagnostic, classify, bind, throw, console_error, emit.
  destruct (response e) as [resp|]; [|destruct (request e)];
    simpl; now rewrite <- ?app_assoc.
Qed.

Lemma net_calls_app tr1 tr2 :
  net_calls (tr1 ++ tr2) = net_calls tr1 ++ net_calls tr2.
Proof.
  induction tr1 as [|[] tr1 IH]; simpl; rewrite ?IH; reflexivity.
Qed.

Lemma net_calls_diagnostic e : net_calls (diagnostic e) = [].
Proof. unfold diagnostic. now destruct (classify e). Qed.

(** Every Publisher method is its [try] block under the shared handler. *)
Lemma perform_try_catch this op :
  perform this op = try_catch (perform_body this op) handleError.
Proof. now destruct op. Qed.

Lemma perform_body_starts_with_validateConfig this op w h e :
  validateConfig this w h = (Throw e, h) ->
  perform_body this op w h = (Throw e, h).
Proof.
  intros H.
  destruct op; unfold perform_body, postTextUpdate_body, postArticle_body,
    postImage_body, getUserProfile_body, bind; now rewrite H.
Qed.

Lemma stub_agent_valid : valid_config Stub.agent.
Proof. split; intros [H|H]; discriminate H. Defined.

Lemma stub_agent_other_token_valid :
  valid_config Stub.agent_other_token.
Proof. split; intros [H|H]; discriminate H. Defined.

(** ** Credential validation *)

(** C2: every Publisher operation ([postTextUpdate], [postArticle],
    [postImage], [getUserProfile]) called with a missing or empty access
    token or actor URN fails with the configuration error of
    [validateConfig]; the only thing it does is log that error: no network
    call (indeed no outside call at all) is made, validation being the first
    step of the operation. *)
Theorem invalid_config_fails_without_network this op w h :
  missing_or_empty (accessToken this) \/ missing_or_empty (personURN this) ->
  exists msg added,
    (msg = "LINKEDIN_ACCESS_TOKEN is not set in .env file" \/
     msg = "LINKEDIN_PERSON_URN is not set in .env file") /\
    perform this op w h = (Throw (Error msg), h ++ added) /\
    added = [EError [JStr "Error:"; JStr msg]] /\
    net_calls added = [].
Proof.
  intros Hbad.
  destruct (validateConfig_invalid this w h Hbad) as (msg & Hv & Hmsg).
  exists msg, [EError [JStr "Error:"; JStr msg]].
  repeat split; trivial.
  rewrite perform_try_catch. unfold try_catch.
  rewrite (perform_body_starts_with_validateConfig _ _ _ _ _ Hv).
  now rewrite handleError_spec.
Qed.

Lemma invalid_config_fails_without_network_witness :
  (missing_or_empty (accessToken Stub.agent_without_token) \/
   missing_or_empty (personURN Stub.agent_without_token)) /\
  exists msg added,
    (msg = "LINKEDIN_ACCESS_TOKEN is not set in .env file" \/
     msg = "LINKEDIN_PERSON_URN is not set in .env file") /\
    perform Stub.agent_without_token
      (OpPostImage (JStr "caption") (JStr "/tmp/x.jpg") (JStr "PUBLIC"))
      Stub.all_ok []
    = (Throw (Error msg), [] ++ added) /\
    added = [EError [JStr "Error:"; JStr msg]] /\
    net_calls added = [].
Proof.
  assert (H : missing_or_empty (accessToken Stub.agent_without_token) \/
              missing_or_empty (personURN Stub.agent_without_token))
    by (left; left; reflexivity).
  split; [exact H|].
  exact (invalid_config_fails_without_network _ _ _ _ H).
Defined.

(** ** Failures of the call chain *)

Ltac unfold_agent :=
  unfold run, perform_body, postTextUpdate_body, postArticle_body,
    postImage_body, getUserProfile_body, registerImageUpload, uploadImage,
    validateConfig, bind, ret, throw, lift, console_log, console_error,
    emit, axios, fs_readFileSync in *.

(** Case analysis on the innermost scrutinee of a hypothesis. *)
Ltac break_in H :=
  match type of H with
  | context [match ?x with _ => _ end] =>
      lazymatch x with
      | context [match _ with _ => _ end] => fail
      | _ => destruct x eqn:?
      end
  | context [if ?x then _ else _] =>
      lazymatch x with
      | context [match _ with _ => _ end] => fail
      | context [if _ then _ else _] => fail
      | _ => destruct x eqn:?
      end
  end.

Lemma cons_eq_split {A} (x : A) l before ev after :
  x :: l = before ++ ev :: after ->
  (before = [] /\ ev = x /\ after = l) \/
  (exists before', before = x :: before' /\ l = before' ++ ev :: after).
Proof.
  destruct before as [|b before']; simpl; intros H; injection H as -> ->.
  - now left.
  - right. now exists before'.
Qed.

Lemma nil_eq_split {A} (before : list A) ev after :
  [] = before ++ ev :: after -> False.
Proof. destruct before; discriminate. Qed.

(** Walk a concrete trace looking for the position of an event. *)
Ltac locate H :=
  repeat
    match type of H with
    | [] = _ ++ _ :: _ => exfalso; exact (nil_eq_split _ _ _ H)
    | _ :: _ = _ ++ _ :: _ =>
        apply cons_eq_split in H;
        let b := fresh "before" in
        let Hev := fresh "Hev" in
        let Hafter := fresh "Hafter" in
        destruct H as [(-> & Hev & Hafter) | (b & -> & H)]
    end.

(** Inside a [try] block, an outside call that fails ends the block at
    once, with the error it answered. *)
Lemma body_failed_call_is_outcome this op w out tr before ev after e :
  run (perform_body this op) w = (out, tr) ->
  tr = before ++ ev :: after ->
  failed_call w before ev = Some e ->
  out = Throw e /\ after = [].
Proof.
  intros Hrun Hsplit Hfail.
  destruct op; unfold_agent; simpl in Hrun;
    repeat (break_in Hrun; simpl in Hrun);
    injection Hrun as <- <-;
    locate Hsplit; subst; simpl in Hfail;
    repeat match goal with
           | H : ?x = _, H' : context [?x] |- _ => rewrite H in H'
           end;
    try discriminate; injection Hfail as <-; auto.
Qed.

Lemma diagnostic_has_no_outside_call w e before ev after x :
  diagnostic e = before ++ ev :: after -> failed_call w x ev = None.
Proof.
  unfold diagnostic. intros H.
  destruct (classify e); locate H; subst; reflexivity.
Qed.

(** The same, for the whole method: the failed call is followed by the
    diagnostic of its error and by nothing else. *)
Lemma failed_call_is_outcome this op w out tr before ev after e :
  run (perform this op) w = (out, tr) ->
  tr = before ++ ev :: after ->
  failed_call w before ev = Some e ->
  out = Throw e /\ after = diagnostic e.
Proof.
  unfold run. rewrite perform_try_catch. unfold try_catch.
  destruct (perform_body this op w []) as [[v|e0] tr0] eqn:Hbody.
  - intros [= <- <-] Hsplit Hfail.
    destruct (body_failed_call_is_outcome _ _ _ _ _ _ _ _ _ Hbody Hsplit Hfail)
      as [? _]; discriminate.
  - rewrite handleError_spec. intros [= <- <-] Hsplit Hfail.
    apply app_eq_app in Hsplit. destruct Hsplit as (l & [[H1 H2] | [H1 H2]]).
    + destruct l as [|x l]; simpl in H2.
      * rewrite app_nil_r in H1. subst tr0.
        symmetry in H2.
        rewrite (diagnostic_has_no_outside_call w _ [] _ _ before H2) in Hfail.
        discriminate.
      * injection H2 as <- ->.
        destruct (body_failed_call_is_outcome _ _ _ _ _ _ _ _ _ Hbody H1 Hfail)
          as [[= ->] ->].
        auto.
    + destruct l as [|x l]; simpl in H2.
      * rewrite app_nil_r in H1. subst before.
        rewrite (diagnostic_has_no_outside_call w _ [] _ _ tr0 H2) in Hfail.
        discriminate.
      * subst before.
        rewrite (diagnostic_has_no_outside_call w _ (x :: l) _ _ _ H2) in Hfail.
        discriminate.
Qed.

(** C5: every Publisher operation catches whatever its own call chain
    throws, logs the diagnostic of that error and throws the same error
    again; it returns normally only when its call chain did.  The
    diagnostic tells the three shapes apart: an error with a response is
    logged with its status code and response body, an error with a request
    but no response as "No response received", any other error by its
    message.  A failed outside call is never retried or swallowed: the
    error it answered is the outcome of the operation, and the only events
    after the call are the lines of its diagnostic. *)
Theorem publisher_failures_logged_and_reraised this op w :
  (forall h e h',
      perform_body this op w h = (Throw e, h') ->
      perform this op w h = (Throw e, h' ++ diagnostic e)) /\
  (forall h v h',
      perform this op w h = (Return v, h') ->
      perform_body this op w h = (Return v, h')) /\
  (forall out tr before ev after e,
      run (perform this op) w = (out, tr) ->
      tr = before ++ ev :: after ->
      failed_call w before ev = Some e ->
      out = Throw e /\ after = diagnostic e) /\
  (forall e,
      match response e, request e with
      | Some resp, _ =>
          diagnostic e =
            [ EError [JStr "LinkedIn API Error:"];
              EError [JStr "Status:"; JNum (status resp)];
              EError [JStr "Message:"; data resp] ]
      | None, true =>
          diagnostic e =
            [ EError [JStr "No response received from LinkedIn API"];
              EError [JStr (message e)] ]
      | None, false =>
          diagnostic e = [ EError [JStr "Error:"; JStr (message e)] ]
      end).
Proof.
  repeat split.
  - intros h e h' Hbody. rewrite perform_try_catch. unfold try_catch.
    rewrite Hbody. apply handleError_spec.
  - intros h v h'. rewrite perform_try_catch. unfold try_catch.
    destruct (perform_body this op w h) as [[v0|e0] h0]; trivial.
    rewrite handleError_spec. discriminate.
  - eapply failed_call_is_outcome; eassumption.
  - eapply failed_call_is_outcome; eassumption.
  - intros e. unfold diagnostic, classify.
    destruct (response e); [|destruct (request e)]; reflexivity.
Qed.

Lemma publisher_failures_logged_and_reraised_witness :
  run (perform Stub.agent (OpPostTextUpdate (JStr "hello") (JStr "PUBLIC")))
      Stub.offline
  = (Throw Stub.ENOTFOUND,
     [ ENet (create_post_request Stub.agent
               (textPostData Stub.agent (JStr "hello") (JStr "PUBLIC"))) ]
     ++ [ EError [JStr "No response received from LinkedIn API"];
          EError [JStr "getaddrinfo ENOTFOUND api.linkedin.com"] ]).
Proof.
  apply (proj1 (publisher_failures_logged_and_reraised
                  Stub.agent
                  (OpPostTextUpdate (JStr "hello") (JStr "PUBLIC"))
                  Stub.offline)
           [] Stub.ENOTFOUND).
  reflexivity.
Defined.

(** ** Payloads *)

(** With valid credentials, the first thing [postTextUpdate] does is send
    its [postData]; whatever follows is console output. *)
Lemma postTextUpdate_trace this text visibility w h :
  valid_config this ->
  exists rest,
    snd (postTextUpdate this text visibility w h)
    = h ++ ENet (create_post_request this
                   (textPostData this text (default_param visibility PUBLIC)))
           :: rest /\
    net_calls rest = [].
Proof.
  intros Hvalid.
  unfold postTextUpdate, try_catch, postTextUpdate_body, bind.
  rewrite validateConfig_valid by assumption.
  unfold axios.
  destruct (axios_request w h _) as [e|resp].
  - rewrite handleError_spec. simpl. rewrite <- app_assoc. simpl.
    eauto using net_calls_diagnostic.
  - unfold console_log, emit, lift, ret.
    destruct (get_prop (data resp) "id") as [id|e].
    + simpl. rewrite <- !app_assoc. simpl. eauto.
    + rewrite handleError_spec. simpl. rewrite <- !app_assoc. simpl.
      eexists. split; [reflexivity|]. simpl. apply net_calls_diagnostic.
Qed.

Lemma postArticle_trace this text url title description visibility w h :
  valid_config this ->
  exists rest,
    snd (postArticle this text url title description visibility w h)
    = h ++ ENet (create_post_request this
                   (articlePostData this text url title description
                      (default_param visibility PUBLIC)))
           :: rest /\
    net_calls rest = [].
Proof.
  intros Hvalid.
  unfold postArticle, try_catch, postArticle_body, bind.
  rewrite validateConfig_valid by assumption.
  unfold axios.
  destruct (axios_request w h _) as [e|resp].
  - rewrite handleError_spec. simpl. rewrite <- app_assoc. simpl.
    eauto using net_calls_diagnostic.
  - unfold console_log, emit, lift, ret.
    destruct (get_prop (data resp) "id") as [id|e].
    + simpl. rewrite <- !app_assoc. simpl. eauto.
    + rewrite handleError_spec. simpl. rewrite <- !app_assoc. simpl.
      eexists. split; [reflexivity|]. simpl. apply net_calls_diagnostic.
Qed.

(** C6: for every text T and visibility V, the document [postTextUpdate]
    sends to the create-post endpoint (its first action once the
    credentials are validated) has author equal to the actor URN, lifecycle
    state "PUBLISHED", commentary text T, media category "NONE" and
    V under the visibility key.  The instance T = "T", V = "CONNECTIONS" is
    the witness below. *)
Theorem postTextUpdate_payload this (T : jsval) (V : string) w h :
  valid_config this ->
  exists payload rest,
    snd (postTextUpdate this T (JStr V) w h)
      = h ++ ENet (create_post_request this payload) :: rest /\
    get_path payload ["author"] = Return (of_env (personURN this)) /\
    get_path payload ["lifecycleState"] = Return (JStr "PUBLISHED") /\
    get_path payload (ShareContent ++ ["shareCommentary"; "text"])
      = Return T /\
    get_path payload (ShareContent ++ ["shareMediaCategory"])
      = Return (JStr "NONE") /\
    get_path payload
      ["visibility"; "com.linkedin.ugc.MemberNetworkVisibility"]
      = Return (JStr V).
Proof.
  intros Hvalid.
  destruct (postTextUpdate_trace this T (JStr V) w h Hvalid)
    as (rest & Htrace & _).
  exists (textPostData this T (JStr V)), rest.
  split; [exact Htrace|]. repeat split; reflexivity.
Qed.

Lemma postTextUpdate_payload_witness :
  valid_config Stub.agent /\
  exists payload rest,
    snd (postTextUpdate Stub.agent (JStr "T") (JStr "CONNECTIONS")
           Stub.all_ok [])
      = [] ++ ENet (create_post_request Stub.agent payload) :: rest /\
    get_path payload ["author"] = Return (of_env (personURN Stub.agent)) /\
    get_path payload ["lifecycleState"] = Return (JStr "PUBLISHED") /\
    get_path payload (ShareContent ++ ["shareCommentary"; "text"])
      = Return (JStr "T") /\
    get_path payload (ShareContent ++ ["shareMediaCategory"])
      = Return (JStr "NONE") /\
    get_path payload
      ["visibility"; "com.linkedin.ugc.MemberNetworkVisibility"]
      = Return (JStr "CONNECTIONS").
Proof.
  split; [exact stub_agent_valid|].
  exact (postTextUpdate_payload Stub.agent (JStr "T") "CONNECTIONS"
           Stub.all_ok [] stub_agent_valid).
Defined.

(** C7: for every article post, the document [postArticle] sends to the
    create-post endpoint has media category "ARTICLE" and a media list of
    exactly one entry, which carries the supplied URL, title and
    description with status "READY". *)
Theorem postArticle_payload this text url title description visibility w h :
  valid_config this ->
  exists payload entry rest,
    snd (postArticle this text url title description visibility w h)
      = h ++ ENet (create_post_request this payload) :: rest /\
    get_path payload (ShareContent ++ ["shareMediaCategory"])
      = Return (JStr "ARTICLE") /\
    get_path payload (ShareContent ++ ["media"]) = Return (JArr [entry]) /\
    get_path entry ["status"] = Return (JStr "READY") /\
    get_path entry ["originalUrl"] = Return url /\
    get_path entry ["title"; "text"] = Return title /\
    get_path entry ["description"; "text"] = Return description.
Proof.
  intros Hvalid.
  destruct (postArticle_trace this text url title description visibility
              w h Hvalid) as (rest & Htrace & _).
  exists (articlePostData this text url title description
            (default_param visibility PUBLIC)).
  exists (JObj [ ("status", JStr "READY"); ("originalUrl", url);
                 ("title", JObj [("text", title)]);
                 ("description", JObj [("text", description)]) ]).
  exists rest.
  split; [exact Htrace|]. repeat split; reflexivity.
Qed.

Lemma postArticle_payload_witness :
  valid_config Stub.agent /\
  exists payload entry rest,
    snd (postArticle Stub.agent (JStr "Great article!")
           (JStr "https://example.com/article") (JStr "Article Title")
           (JStr "Article description") (JStr "PUBLIC") Stub.all_ok [])
      = [] ++ ENet (create_post_request Stub.agent payload) :: rest /\
    get_path payload (ShareContent ++ ["shareMediaCategory"])
      = Return (JStr "ARTICLE") /\
    get_path payload (ShareContent ++ ["media"]) = Return (JArr [entry]) /\
    get_path entry ["status"] = Return (JStr "READY") /\
    get_path entry ["originalUrl"]
      = Return (JStr "https://example.com/article") /\
    get_path entry ["title"; "text"] = Return (JStr "Article Title") /\
    get_path entry ["description"; "text"]
      = Return (JStr "Article description").
Proof.
  split; [exact stub_agent_valid|].
  exact (postArticle_payload Stub.agent _ _ _ _ _ Stub.all_ok []
           stub_agent_valid).
Defined.

(** ** Every run of [postImage] is one of [image_run] *)

Lemma validateConfig_cases this w h :
  (valid_config this /\ validateConfig this w h = (Return tt, h)) \/
  (exists e, validateConfig this w h = (Throw e, h)).
Proof.
  unfold validateConfig.
  destruct (truthy_env (accessToken this)) eqn:Ht; simpl;
    [destruct (truthy_env (personURN this)) eqn:Hu; simpl|].
  - left. split; trivial. now apply valid_config_truthy.
  - right. eexists. reflexivity.
  - right. eexists. reflexivity.
Qed.

(** Every run of the [try] block is one of those. *)
Lemma postImage_body_run this text imagePath visibility w out tr :
  run (postImage_body this text imagePath visibility) w = (out, tr) ->
  image_run this text imagePath visibility w out tr.
Proof.
  unfold run, postImage_body. unfold bind at 1.
  destruct (validateConfig_cases this w [])
    as [[Hvalid Hv] | [e Hv]]; rewrite Hv.
  2:{ intros [= <- <-]. now apply run_invalid_config. }
  unfold registerImageUpload, uploadImage, bind, ret, lift, console_log,
    emit, axios, fs_readFileSync. simpl.
  destruct (axios_request w [] (register_request this)) as [e|r1] eqn:H1.
  { intros [= <- <-]. now apply run_register_failed. }
  destruct (read_uploadUrl (data r1)) as [uploadUrl|e] eqn:Hurl.
  2:{ intros [= <- <-]. eapply run_no_uploadUrl; eassumption. }
  destruct (read_asset (data r1)) as [asset|e] eqn:Hasset.
  2:{ intros [= <- <-]. eapply run_no_asset; eassumption. }
  assert (Hreg : registered this w r1 uploadUrl asset)
    by (unfold registered; auto).
  destruct (readFileSync w [ENet (register_request this)] imagePath)
    as [e|bytes] eqn:H2.
  { intros [= <- <-]. eapply run_read_failed; eassumption. }
  simpl.
  destruct (axios_request w
              [ENet (register_request this); EReadFile imagePath] _)
    as [e|r2] eqn:H3.
  { intros [= <- <-]. eapply run_upload_failed; eassumption. }
  assert (Hup : uploaded this imagePath w uploadUrl bytes)
    by (split; [assumption|eauto]).
  simpl.
  destruct (axios_request w _ (create_post_request _ _)) as [e|r3] eqn:H4.
  { intros [= <- <-]. eapply run_create_failed; eassumption. }
  simpl.
  destruct (get_prop (data r3) "id") as [id|e] eqn:H5.
  - intros [= <- <-]. eapply run_posted; eassumption.
  - intros [= <- <-]. eapply run_no_id; eassumption.
Qed.

(** The [try] block always ends, in one of those ways. *)
Lemma postImage_body_total this text imagePath visibility w :
  exists out tr,
    run (postImage_body this text imagePath visibility) w = (out, tr) /\
    image_run this text imagePath visibility w out tr.
Proof.
  destruct (run (postImage_body this text imagePath visibility) w)
    as [out tr] eqn:Hrun.
  exists out, tr. split; trivial. now apply postImage_body_run.
Qed.

(** The whole method: the [catch] block adds the diagnostic. *)
Lemma postImage_run this text imagePath visibility w out tr :
  run (postImage this text imagePath visibility) w = (out, tr) ->
  exists tr0,
    image_run this text imagePath visibility w out tr0 /\
    tr = tr0 ++ match out with
                | Return _ => []
                | Throw e => diagnostic e
                end.
Proof.
  unfold run, postImage, try_catch.
  destruct (postImage_body this text imagePath visibility w [])
    as [[v|e] tr0] eqn:Hbody.
  - intros [= <- <-]. exists tr0. rewrite app_nil_r.
    split; trivial. now apply postImage_body_run.
  - rewrite handleError_spec. intros [= <- <-]. exists tr0.
    split; trivial. now apply postImage_body_run.
Qed.

(** ** The order of the three calls of [postImage] *)

Lemma last_char_append (s t : string) :
  t <> "" -> last_char (s ++ t) = last_char t.
Proof.
  intros Ht. induction s as [|c s IH]; simpl; trivial.
  rewrite IH. destruct (s ++ t)%string eqn:E; trivial.
  destruct s; simpl in E; [contradiction|discriminate].
Qed.

(** Whatever [baseURL] holds, the registration endpoint is not the
    create-post endpoint. *)
Lemma register_is_not_create this :
  is_create_post this (register_request this) = false.
Proof.
  unfold is_create_post, register_request, strict_eq_str.
  cbn [req_method req_url HttpMethod_eqb andb].
  match goal with
  | |- String.eqb ?a ?b = false => destruct (String.eqb a b) eqn:E; trivial
  end.
  apply String.eqb_eq in E. apply (f_equal last_char) in E.
  rewrite last_char_append in E by discriminate. discriminate E.
Qed.

Lemma upload_is_not_create this url buffer :
  is_create_post this (upload_request this url buffer) = false.
Proof. reflexivity. Qed.

Lemma create_is_create this payload :
  is_create_post this (create_post_request this payload) = true.
Proof. unfold is_create_post. simpl. apply String.eqb_refl. Qed.

Lemma image_run_calls_prefix this text imagePath visibility w out tr0 :
  image_run this text imagePath visibility w out tr0 ->
  exists uploadUrl bytes asset,
    is_prefix (net_calls tr0)
      (image_calls this text visibility uploadUrl bytes asset) /\
    (forall v, out = Return v ->
       net_calls tr0
       = image_calls this text visibility uploadUrl bytes asset).
Proof.
  unfold is_prefix, image_calls.
  intros [ e _ | e _ _ | r1 e _ _ _ | r1 url e _ _ _ _
         | r1 url asset e _ _ | r1 url asset bytes e _ _ _
         | r1 url asset bytes e _ _ _ | r1 url asset bytes r3 e _ _ _ _
         | r1 url asset bytes r3 id _ _ _ _ ]; simpl.
  1-5: exists JUndefined, [], JUndefined; split; [eexists; reflexivity|discriminate].
  1: exists url, bytes, JUndefined; split; [eexists; reflexivity|discriminate].
  1-2: exists url, bytes, asset; split; [exists []; reflexivity|discriminate].
  exists url, bytes, asset; split; [exists []; reflexivity|reflexivity].
Qed.

Lemma image_run_success this text imagePath visibility w out tr0
    r1 uploadUrl asset bytes :
  image_run this text imagePath visibility w out tr0 ->
  registered this w r1 uploadUrl asset ->
  uploaded this imagePath w uploadUrl bytes ->
  net_calls tr0 = image_calls this text visibility uploadUrl bytes asset.
Proof.
  intros Hrun (Hvalid & H1 & Hurl & Hasset) (H2 & r2 & H3).
  unfold file_read in H2.
  destruct Hrun as
    [ e Hv | e _ H | r1' e _ H1' H | r1' url' e _ H1' _ H
    | r1' url' asset' e (_ & H1' & Hurl' & Hasset') H
    | r1' url' asset' bytes' e (_ & H1' & Hurl' & Hasset') H2' H
    | r1' url' asset' bytes' e (_ & H1' & Hurl' & Hasset') (H2' & _) _
    | r1' url' asset' bytes' r3 e (_ & H1' & Hurl' & Hasset') (H2' & _) _ _
    | r1' url' asset' bytes' r3 id (_ & H1' & Hurl' & Hasset') (H2' & _) _ _ ];
    unfold file_read in *.
  - rewrite validateConfig_valid in Hv by assumption. discriminate.
  - congruence.
  - congruence.
  - congruence.
  - congruence.
  - assert (r1' = r1) by congruence. subst r1'.
    assert (url' = uploadUrl) by congruence.
    assert (bytes' = bytes) by congruence. subst. congruence.
  - assert (r1' = r1) by congruence. subst r1'.
    assert (url' = uploadUrl) by congruence.
    assert (asset' = asset) by congruence.
    assert (bytes' = bytes) by congruence. subst. reflexivity.
  - assert (r1' = r1) by congruence. subst r1'.
    assert (url' = uploadUrl) by congruence.
    assert (asset' = asset) by congruence.
    assert (bytes' = bytes) by congruence. subst. reflexivity.
  - assert (r1' = r1) by congruence. subst r1'.
    assert (url' = uploadUrl) by congruence.
    assert (asset' = asset) by congruence.
    assert (bytes' = bytes) by congruence. subst. reflexivity.
Qed.

(** A failure in the upload phase ends the run before any request to the
    create-post endpoint. *)
Lemma upload_failure_stops_before_create
    this text imagePath visibility w out tr before ev after e :
  run (postImage this text imagePath visibility) w = (out, tr) ->
  tr = before ++ ev :: after ->
  upload_step ev = true ->
  failed_call w before ev = Some e ->
  out = Throw e /\
  forall r, In r (net_calls tr) -> is_create_post this r = false.
Proof.
  intros Hrun Hsplit Hstep Hfail.
  destruct (failed_call_is_outcome this (OpPostImage text imagePath visibility)
              w out tr before ev after e Hrun Hsplit Hfail) as [-> ->].
  split; trivial.
  apply postImage_run in Hrun. destruct Hrun as (tr0 & Hrun & ->).
  change (before ++ ev :: diagnostic e)
    with (before ++ [ev] ++ diagnostic e) in Hsplit.
  rewrite app_assoc in Hsplit. apply app_inv_tail in Hsplit.
  assert (Hlast : last tr0 (ELog []) = ev)
    by (rewrite Hsplit; apply last_last).
  rewrite net_calls_app, net_calls_diagnostic, app_nil_r.
  rewrite <- Hlast in Hstep. clear Hlast Hsplit Hfail.
  inversion Hrun; subst; unfold pipeline, upload_of, create_of in *;
    simpl in Hstep; try discriminate Hstep;
    simpl; intros r Hin;
    repeat match goal with
           | H : _ \/ _ |- _ => destruct H as [<- | H]
           | H : False |- _ => contradiction
           end;
    auto using register_is_not_create, upload_is_not_create.
Qed.

(** C1: [postImage] issues its network calls strictly in the order
    register, upload (the PUT to the upload URL), create: in every run the
    calls made are an initial part of that sequence of three; a run that
    returns, and every run in which registration and upload succeed, has
    made exactly those three calls in that order; and when the upload phase
    fails (the file read or the PUT), no request reaches the create-post
    endpoint. *)
Theorem postImage_phases_in_sequence
    this text imagePath visibility w out tr :
  run (postImage this text imagePath visibility) w = (out, tr) ->
  (exists uploadUrl bytes asset,
      is_prefix (net_calls tr)
        (image_calls this text visibility uploadUrl bytes asset) /\
      (forall v, out = Return v ->
         net_calls tr
         = image_calls this text visibility uploadUrl bytes asset)) /\
  (forall r1 uploadUrl asset bytes,
      registered this w r1 uploadUrl asset ->
      uploaded this imagePath w uploadUrl bytes ->
      net_calls tr
      = image_calls this text visibility uploadUrl bytes asset) /\
  (forall before ev after e,
      tr = before ++ ev :: after ->
      upload_step ev = true ->
      failed_call w before ev = Some e ->
      out = Throw e /\
      forall r, In r (net_calls tr) -> is_create_post this r = false).
Proof.
  intros Hrun. split; [|split].
  - destruct (postImage_run _ _ _ _ _ _ _ Hrun) as (tr0 & Hrun0 & ->).
    rewrite net_calls_app.
    replace (net_calls (match out with
                        | Return _ => []
                        | Throw e => diagnostic e
                        end)) with (@nil Request)
      by (destruct out; [reflexivity|now rewrite net_calls_diagnostic]).
    rewrite app_nil_r.
    eapply image_run_calls_prefix; eassumption.
  - intros r1 uploadUrl asset bytes Hreg Hup.
    destruct (postImage_run _ _ _ _ _ _ _ Hrun) as (tr0 & Hrun0 & ->).
    rewrite net_calls_app.
    replace (net_calls (match out with
                        | Return _ => []
                        | Throw e => diagnostic e
                        end)) with (@nil Request)
      by (destruct out; [reflexivity|now rewrite net_calls_diagnostic]).
    rewrite app_nil_r.
    eapply image_run_success; eassumption.
  - intros before ev after e Hsplit Hstep Hfail.
    eapply upload_failure_stops_before_create; eassumption.
Qed.

Lemma postImage_phases_in_sequence_witness :
  (* everything succeeds: register, upload, create, in that order *)
  net_calls
    (snd (run (postImage Stub.agent (JStr "caption") (JStr "/tmp/x.jpg")
                 (JStr "PUBLIC")) Stub.all_ok))
  = image_calls Stub.agent (JStr "caption") (JStr "PUBLIC")
      (JStr "https://u") [Byte.xff; Byte.xd8; Byte.xff]
      (JStr "urn:li:digitalmediaAsset:1") /\
  (* the PUT is refused: the create-post endpoint is not reached *)
  (fst (run (postImage Stub.agent (JStr "caption") (JStr "/tmp/x.jpg")
               (JStr "PUBLIC")) Stub.upload_refused)
   = Throw Stub.unauthorized /\
   forall r,
     In r (net_calls
             (snd (run (postImage Stub.agent (JStr "caption")
                          (JStr "/tmp/x.jpg") (JStr "PUBLIC"))
                       Stub.upload_refused))) ->
     is_create_post Stub.agent r = false).
Proof.
  split.
  - pose proof (postImage_phases_in_sequence Stub.agent (JStr "caption")
                  (JStr "/tmp/x.jpg") (JStr "PUBLIC") Stub.all_ok _ _
                  (surjective_pairing _)) as (_ & Hok & _).
    eapply Hok.
    + split; [exact stub_agent_valid|].
      split; [reflexivity|]. split; reflexivity.
    + split; [reflexivity|]. eexists. reflexivity.
  - pose proof (postImage_phases_in_sequence Stub.agent (JStr "caption")
                  (JStr "/tmp/x.jpg") (JStr "PUBLIC") Stub.upload_refused _ _
                  (surjective_pairing _)) as (_ & _ & Hfail).
    apply (Hfail
             [ ENet (register_request Stub.agent);
               EReadFile (JStr "/tmp/x.jpg") ]
             (ENet (upload_request Stub.agent (JStr "https://u")
                      (JBuffer [Byte.xff; Byte.xd8; Byte.xff])))
             (diagnostic Stub.unauthorized)); reflexivity.
Defined.

(** ** Reading the image file *)

Lemma image_run_starts_with_registration
    this text imagePath visibility w out tr0 :
  valid_config this ->
  image_run this text imagePath visibility w out tr0 ->
  exists rest, tr0 = ENet (register_request this) :: rest.
Proof.
  intros Hvalid Hrun.
  inversion Hrun; subst; unfold pipeline; simpl; eauto.
  rewrite validateConfig_valid in H by assumption. discriminate.
Qed.

Lemma image_run_reads_after_registration
    this text imagePath visibility w out tr0 before path after :
  image_run this text imagePath visibility w out tr0 ->
  tr0 = before ++ EReadFile path :: after ->
  before = [ENet (register_request this)] /\
  path = imagePath /\
  exists r1 uploadUrl asset, registered this w r1 uploadUrl asset.
Proof.
  intros Hrun.
  destruct Hrun; intros Hsplit; unfold pipeline, upload_of, create_of in *;
    simpl in Hsplit; locate Hsplit; try discriminate;
    match goal with
    | H : EReadFile _ = EReadFile _ |- _ => injection H as ->
    end; eauto 6.
Qed.

(** C9: in [postImage] the image file is read only after the registration
    call has succeeded.  Under valid credentials the run always starts with
    the registration request; a file read, wherever it occurs in a run,
    comes immediately after a successful registration; and when the path
    cannot be read, a run whose registration succeeded fails with the error
    of the file read, its only network call being the registration: no
    upload, no post, and no call that would release the registered asset. *)
Theorem postImage_reads_file_after_registration
    this text imagePath visibility w out tr :
  valid_config this ->
  run (postImage this text imagePath visibility) w = (out, tr) ->
  (exists rest, tr = ENet (register_request this) :: rest) /\
  (forall before path after,
      tr = before ++ EReadFile path :: after ->
      before = [ENet (register_request this)] /\
      exists r1 uploadUrl asset, registered this w r1 uploadUrl asset) /\
  (forall e r1 uploadUrl asset,
      unreadable this imagePath w e ->
      registered this w r1 uploadUrl asset ->
      out = Throw e /\
      tr = [ENet (register_request this); EReadFile imagePath]
           ++ diagnostic e /\
      net_calls tr = [register_request this]).
Proof.
  intros Hvalid Hrun.
  destruct (postImage_run _ _ _ _ _ _ _ Hrun) as (tr0 & Hrun0 & ->).
  split; [|split].
  - destruct (image_run_starts_with_registration _ _ _ _ _ _ _ Hvalid Hrun0)
      as [rest ->].
    simpl. eauto.
  - intros before path after Hsplit.
    assert (Hin : exists after0, tr0 = before ++ EReadFile path :: after0).
    { apply app_eq_app in Hsplit.
      destruct Hsplit as (l & [[H1 H2] | [H1 H2]]).
      - destruct l as [|x l]; simpl in H2.
        + exfalso. destruct out as [v|e]; [discriminate H2|].
          symmetry in H2.
          pose proof (diagnostic_has_no_outside_call w e [] _ _ [] H2) as Hn.
          clear - H2. unfold diagnostic in H2.
          destruct (classify e); discriminate H2.
        + injection H2 as <- _. eauto.
      - exfalso. destruct out as [v|e].
        + destruct l; discriminate H2.
        + clear - H2. unfold diagnostic in H2.
          destruct (classify e); locate H2; discriminate. }
    destruct Hin as [after0 Hin].
    destruct (image_run_reads_after_registration _ _ _ _ _ _ _ _ _ _
                Hrun0 Hin) as (-> & _ & Hreg).
    auto.
  - intros e r1 uploadUrl asset Hno (_ & H1 & Hurl & Hasset).
    unfold unreadable in Hno.
    inversion Hrun0; subst;
      repeat match goal with
             | H : registered _ _ _ _ _ |- _ => destruct H as (_ & ? & ? & ?)
             | H : uploaded _ _ _ _ _ |- _ => destruct H as (? & _)
             | H : file_read _ _ _ _ |- _ => unfold file_read in H
             end;
      try congruence.
    + rewrite validateConfig_valid in H by assumption. discriminate.
    + assert (e0 = e) by congruence. subst e0.
      repeat split; trivial.
      rewrite net_calls_app, net_calls_diagnostic. reflexivity.
Qed.

Lemma postImage_reads_file_after_registration_witness :
  fst (run (postImage Stub.agent (JStr "caption") (JStr "/tmp/x.jpg")
              (JStr "PUBLIC")) Stub.no_file)
  = Throw Stub.ENOENT /\
  snd (run (postImage Stub.agent (JStr "caption") (JStr "/tmp/x.jpg")
              (JStr "PUBLIC")) Stub.no_file)
  = [ENet (register_request Stub.agent); EReadFile (JStr "/tmp/x.jpg")]
    ++ diagnostic Stub.ENOENT /\
  net_calls
    (snd (run (postImage Stub.agent (JStr "caption") (JStr "/tmp/x.jpg")
                 (JStr "PUBLIC")) Stub.no_file))
  = [register_request Stub.agent].
Proof.
  pose proof (postImage_reads_file_after_registration Stub.agent
                (JStr "caption") (JStr "/tmp/x.jpg") (JStr "PUBLIC")
                Stub.no_file _ _ stub_agent_valid (surjective_pairing _))
    as (_ & _ & Hfail).
  eapply Hfail.
  - reflexivity.
  - split; [exact stub_agent_valid|].
    split; [reflexivity|]. split; reflexivity.
Defined.

(** ** Payload construction depends on its inputs only *)

Lemma created_payloads_app this tr1 tr2 :
  created_payloads this (tr1 ++ tr2)
  = created_payloads this tr1 ++ created_payloads this tr2.
Proof.
  unfold created_payloads. now rewrite net_calls_app, filter_app, map_app.
Qed.

Lemma created_payloads_quiet this tr :
  net_calls tr = [] -> created_payloads this tr = [].
Proof. unfold created_payloads. now intros ->. Qed.

Lemma created_payloads_create this payload rest :
  created_payloads this (ENet (create_post_request this payload) :: rest)
  = payload :: created_payloads this rest.
Proof.
  unfold created_payloads. cbn [net_calls filter].
  now rewrite create_is_create.
Qed.

Lemma textPostData_ext a1 a2 text visibility :
  personURN a1 = personURN a2 ->
  textPostData a1 text visibility = textPostData a2 text visibility.
Proof. unfold textPostData. now intros ->. Qed.

Lemma articlePostData_ext a1 a2 text url title description visibility :
  personURN a1 = personURN a2 ->
  articlePostData a1 text url title description visibility
  = articlePostData a2 text url title description visibility.
Proof. unfold articlePostData. now intros ->. Qed.

Lemma imagePostData_ext a1 a2 text visibility asset :
  personURN a1 = personURN a2 ->
  imagePostData a1 text visibility asset
  = imagePostData a2 text visibility asset.
Proof. unfold imagePostData. now intros ->. Qed.

(** A document [postImage] sends to the create-post endpoint is built from
    the registered asset, right after the upload. *)
Lemma image_run_created_payloads
    this text imagePath visibility w out tr0 r1 uploadUrl asset payload :
  image_run this text imagePath visibility w out tr0 ->
  registered this w r1 uploadUrl asset ->
  In payload (created_payloads this tr0) ->
  payload
  = imagePostData this text (default_param visibility PUBLIC) asset /\
  exists bytes rest,
    tr0 = pipeline this text imagePath visibility uploadUrl bytes asset
          ++ rest.
Proof.
  intros Hrun (_ & H1 & Hurl & Hasset).
  destruct Hrun;
    repeat match goal with
           | H : registered _ _ _ _ _ |- _ => destruct H as (_ & ? & ? & ?)
           end;
    unfold pipeline, upload_of, create_of, created_payloads;
    cbn [net_calls app filter map];
    rewrite ?register_is_not_create, ?upload_is_not_create,
      ?create_is_create;
    cbn [net_calls app filter map In req_body create_post_request];
    intros Hin; try contradiction;
    destruct Hin as [<- | []];
    (assert (r0 = r1) by congruence; subst r0;
     assert (uploadUrl0 = uploadUrl) by congruence;
     assert (asset0 = asset) by congruence; subst;
     split; [reflexivity|]; eexists; eexists; reflexivity).
Qed.

(** C8: the document sent to the create-post endpoint is a function of the
    request's own inputs and the actor URN, for all three post shapes.
    Take two agents with the same actor URN (their tokens and endpoints may
    differ) in two arbitrary worlds.  For the same text and visibility the
    two runs of [postTextUpdate] send the same document, and likewise
    [postArticle] for the same article fields; two runs of [postImage]
    whose registrations gave the same asset send the same document, if
    they send one.  Building the document involves no outside call: the
    text and article documents are sent as the very first event of the run,
    the image document directly after the upload. *)
Theorem payload_construction_is_deterministic a1 a2 w1 w2 :
  valid_config a1 -> valid_config a2 ->
  personURN a1 = personURN a2 ->
  (forall text visibility,
      let tr1 := snd (run (postTextUpdate a1 text visibility) w1) in
      let tr2 := snd (run (postTextUpdate a2 text visibility) w2) in
      created_payloads a1 tr1 = created_payloads a2 tr2 /\
      exists payload rest,
        created_payloads a1 tr1 = [payload] /\
        tr1 = ENet (create_post_request a1 payload) :: rest) /\
  (forall text url title description visibility,
      let tr1 :=
        snd (run (postArticle a1 text url title description visibility)
               w1) in
      let tr2 :=
        snd (run (postArticle a2 text url title description visibility)
               w2) in
      created_payloads a1 tr1 = created_payloads a2 tr2 /\
      exists payload rest,
        created_payloads a1 tr1 = [payload] /\
        tr1 = ENet (create_post_request a1 payload) :: rest) /\
  (forall text visibility path1 path2 r1 r2 url1 url2 asset p1 p2,
      let tr1 := snd (run (postImage a1 text path1 visibility) w1) in
      let tr2 := snd (run (postImage a2 text path2 visibility) w2) in
      registered a1 w1 r1 url1 asset ->
      registered a2 w2 r2 url2 asset ->
      In p1 (created_payloads a1 tr1) ->
      In p2 (created_payloads a2 tr2) ->
      p1 = p2 /\
      exists bytes rest,
        tr1 = [ ENet (register_request a1); EReadFile path1;
                ENet (upload_request a1 url1 (JBuffer bytes));
                ENet (create_post_request a1 p1) ] ++ rest).
Proof.
  intros Hv1 Hv2 Hurn. split; [|split].
  - intros text visibility tr1 tr2. subst tr1 tr2. unfold run.
    destruct (postTextUpdate_trace a1 text visibility w1 [] Hv1)
      as (rest1 & -> & Hq1).
    destruct (postTextUpdate_trace a2 text visibility w2 [] Hv2)
      as (rest2 & -> & Hq2).
    simpl app. rewrite !created_payloads_create.
    rewrite (created_payloads_quiet _ _ Hq1), (created_payloads_quiet _ _ Hq2).
    split; [now rewrite (textPostData_ext a1 a2)|eauto].
  - intros text url title description visibility tr1 tr2. subst tr1 tr2.
    unfold run.
    destruct (postArticle_trace a1 text url title description visibility
                w1 [] Hv1) as (rest1 & -> & Hq1).
    destruct (postArticle_trace a2 text url title description visibility
                w2 [] Hv2) as (rest2 & -> & Hq2).
    simpl app. rewrite !created_payloads_create.
    rewrite (created_payloads_quiet _ _ Hq1), (created_payloads_quiet _ _ Hq2).
    split; [now rewrite (articlePostData_ext a1 a2)|eauto].
  - intros text visibility path1 path2 r1 r2 url1 url2 asset p1 p2 tr1 tr2
      Hreg1 Hreg2 Hin1 Hin2. subst tr1 tr2.
    destruct (postImage_run a1 text path1 visibility w1 _ _
                (surjective_pairing _)) as (tr01 & Hrun1 & Htr1).
    destruct (postImage_run a2 text path2 visibility w2 _ _
                (surjective_pairing _)) as (tr02 & Hrun2 & Htr2).
    rewrite Htr1 in Hin1 |- *. rewrite Htr2 in Hin2.
    rewrite created_payloads_app in Hin1, Hin2.
    rewrite (created_payloads_quiet a1 (match _ with Return _ => _ | Throw e => _ end)),
      app_nil_r in Hin1
      by (destruct (fst _); [reflexivity|apply net_calls_diagnostic]).
    rewrite (created_payloads_quiet a2 (match _ with Return _ => _ | Throw e => _ end)),
      app_nil_r in Hin2
      by (destruct (fst _); [reflexivity|apply net_calls_diagnostic]).
    destruct (image_run_created_payloads _ _ _ _ _ _ _ _ _ _ _
                Hrun1 Hreg1 Hin1) as (-> & bytes & rest & ->).
    destruct (image_run_created_payloads _ _ _ _ _ _ _ _ _ _ _
                Hrun2 Hreg2 Hin2) as (-> & _).
    split; [now apply imagePostData_ext|].
    exists bytes. eexists. unfold pipeline, upload_of, create_of.
    rewrite <- app_assoc. reflexivity.
Qed.

Lemma payload_construction_is_deterministic_witness :
  created_payloads Stub.agent
    (snd (run (postTextUpdate Stub.agent (JStr "T") PUBLIC) Stub.all_ok))
  = created_payloads Stub.agent_other_token
      (snd (run (postTextUpdate Stub.agent_other_token (JStr "T") PUBLIC)
              Stub.offline)).
Proof.
  exact (proj1 (proj1 (payload_construction_is_deterministic
                         Stub.agent Stub.agent_other_token
                         Stub.all_ok Stub.offline
                         stub_agent_valid stub_agent_other_token_valid
                         eq_refl)
                  (JStr "T") PUBLIC)).
Defined.

(** ** What a fired job does *)

Lemma get_prop_readable postConfig k v k' :
  get_prop postConfig k = Return v ->
  get_prop postConfig k' = Return (field postConfig k').
Proof. unfold field. destruct postConfig; simpl; congruence. Qed.

(** The job body, by the call it makes. *)
Lemma run_job_unfold job w h :
  run_job job w h =
  match get_prop (job_postConfig job) "type" with
  | Throw e => (Throw e, h ++ [executing])
  | Return _ =>
      match job_operation (job_postConfig job) with
      | Some op => awaited (perform (job_this job) op w (h ++ [executing]))
      | None => (Return JUndefined, h ++ [executing])
      end
  end.
Proof.
  destruct job as [this postConfig]. unfold run_job, job_operation.
  cbn [job_this job_postConfig].
  unfold bind at 1. unfold console_log, emit. fold executing.
  unfold bind at 1. unfold lift at 1.
  destruct (get_prop postConfig "type") as [type|e] eqn:Htype; trivial.
  pose proof (get_prop_readable _ _ _ "text" Htype) as Htext.
  pose proof (get_prop_readable _ _ _ "visibility" Htype) as Hvis.
  pose proof (get_prop_readable _ _ _ "articleUrl" Htype) as Hurl.
  pose proof (get_prop_readable _ _ _ "articleTitle" Htype) as Htitle.
  pose proof (get_prop_readable _ _ _ "articleDescription" Htype) as Hdesc.
  pose proof (get_prop_readable _ _ _ "imagePath" Htype) as Hpath.
  destruct (strict_eq_str type "text").
  { unfold bind, lift, ret. rewrite Htext, Hvis. cbn [perform awaited].
    now destruct (postTextUpdate _ _ _ _ _) as [[v|e] tr]. }
  unfold bind at 1. unfold lift at 1. cbv beta.
  destruct (strict_eq_str type "article").
  { unfold bind, lift, ret. rewrite Htext, Hurl, Htitle, Hdesc, Hvis.
    cbn [perform awaited].
    now destruct (postArticle _ _ _ _ _ _ _ _) as [[v|e] tr]. }
  unfold bind at 1. unfold lift at 1. cbv beta.
  destruct (strict_eq_str type "image").
  { unfold bind, lift, ret. rewrite Htext, Hpath, Hvis.
    cbn [perform awaited].
    now destruct (postImage _ _ _ _ _ _) as [[v|e] tr]. }
  reflexivity.
Qed.

Lemma strict_eq_str_false v lit :
  v <> JStr lit -> strict_eq_str v lit = false.
Proof.
  destruct v; simpl; trivial. intros Hne.
  destruct (String.eqb s lit) eqn:E; trivial.
  apply String.eqb_eq in E. congruence.
Qed.

(** C4 as stated does not hold: the job body has no [catch] of its own.
    A job for a text post fires while the network is down; its Publisher
    call fails, and the job body ends with that very error instead of
    completing normally. *)
Lemma scheduled_job_failure_not_swallowed :
  job_operation (job_postConfig Stub.job_later)
    = Some (OpPostTextUpdate (JStr "later") JUndefined) /\
  fst (perform Stub.agent (OpPostTextUpdate (JStr "later") JUndefined)
         Stub.offline [executing])
    = Throw Stub.ENOTFOUND /\
  run (run_job Stub.job_later) Stub.offline
    = (Throw Stub.ENOTFOUND,
       [ executing;
         ENet (create_post_request Stub.agent
                 (textPostData Stub.agent (JStr "later") PUBLIC));
         EError [JStr "No response received from LinkedIn API"];
         EError [JStr "getaddrinfo ENOTFOUND api.linkedin.com"] ]) /\
  ~ (exists v tr, run (run_job Stub.job_later) Stub.offline = (Return v, tr)).
Proof.
  repeat split; try reflexivity.
  intros (v & tr & H). discriminate H.
Qed.

(** C4, amended: when a scheduled job fires and its Publisher call fails,
    the failure has been logged by the Publisher's handler (its diagnostic
    ends the trace) and is then the outcome of the job body itself: the
    body re-raises it to whatever invoked the job.  When the call returns,
    the job body returns. *)
Theorem scheduled_job_failure_leaves_job_body job op w h :
  job_operation (job_postConfig job) = Some op ->
  (forall e tr,
      perform (job_this job) op w (h ++ [executing]) = (Throw e, tr) ->
      run_job job w h = (Throw e, tr) /\
      exists tr0, tr = tr0 ++ diagnostic e) /\
  (forall v tr,
      perform (job_this job) op w (h ++ [executing]) = (Return v, tr) ->
      run_job job w h = (Return JUndefined, tr)).
Proof.
  intros Hop.
  assert (Hjob : run_job job w h
                 = awaited (perform (job_this job) op w (h ++ [executing]))).
  { rewrite run_job_unfold. unfold job_operation in *.
    destruct (get_prop (job_postConfig job) "type"); [|discriminate].
    now rewrite Hop. }
  split.
  - intros e tr Hcall. rewrite Hjob, Hcall. split; trivial.
    rewrite perform_try_catch in Hcall. unfold try_catch in Hcall.
    destruct (perform_body _ _ _ _) as [[v0|e0] tr0]; [discriminate|].
    rewrite handleError_spec in Hcall. injection Hcall as -> <-. eauto.
  - intros v tr Hcall. now rewrite Hjob, Hcall.
Qed.

Lemma scheduled_job_failure_leaves_job_body_witness :
  run_job Stub.job_later Stub.offline []
  = (Throw Stub.ENOTFOUND,
     [ executing;
       ENet (create_post_request Stub.agent
               (textPostData Stub.agent (JStr "later") PUBLIC)) ]
     ++ diagnostic Stub.ENOTFOUND).
Proof.
  apply (proj1 (scheduled_job_failure_leaves_job_body Stub.job_later
                  (OpPostTextUpdate (JStr "later") JUndefined)
                  Stub.offline [] eq_refl)).
  reflexivity.
Defined.

(** C10: for every [postConfig] whose type tag is none of "text",
    "article" and "image", [schedulePost] registers the job with the timer
    facility as for any other and returns the handle the facility gives,
    and the job body, when fired, only prints its opening line: it makes no
    Publisher call and no network request, and returns normally. *)
Theorem unknown_type_job_does_nothing
    this postConfig type scheduledTime w h :
  get_prop postConfig "type" = Return type ->
  type <> JStr "text" -> type <> JStr "article" -> type <> JStr "image" ->
  (forall handle,
      scheduleJob w
        (h ++ [ELog [JStr ("Post scheduled for "
                           ++ date_toString w scheduledTime)]])
        scheduledTime (mkJob this postConfig) = inr handle ->
      schedulePost this postConfig scheduledTime w h
      = (Return handle,
         h ++ [ ELog [JStr ("Post scheduled for "
                            ++ date_toString w scheduledTime)];
                ESchedule scheduledTime (mkJob this postConfig) ])) /\
  (forall w' h',
      run_job (mkJob this postConfig) w' h'
      = (Return JUndefined, h' ++ [executing]) /\
      job_operation postConfig = None /\
      net_calls (snd (run (run_job (mkJob this postConfig)) w')) = []).
Proof.
  intros Htype Htext Harticle Himage.
  assert (Hnone : job_operation postConfig = None).
  { unfold job_operation. rewrite Htype.
    now rewrite !strict_eq_str_false by assumption. }
  split.
  - intros handle Hhandle.
    unfold schedulePost, bind, render_date, console_log, emit,
      schedule_scheduleJob, ret.
    rewrite Hhandle. now rewrite <- app_assoc.
  - intros w' h'.
    assert (Hrun : forall h0, run_job (mkJob this postConfig) w' h0
                              = (Return JUndefined, h0 ++ [executing])).
    { intros h0. rewrite run_job_unfold. cbn [job_postConfig].
      now rewrite Htype, Hnone. }
    repeat split; trivial. unfold run. now rewrite Hrun.
Qed.

Lemma unknown_type_job_does_nothing_witness :
  schedulePost Stub.agent Stub.video_config (ValidDate 1762783200000)
    Stub.all_ok []
  = (Return (JObj [("name", JStr "<Anonymous Job 1>")]),
     [] ++ [ ELog [JStr ("Post scheduled for "
                         ++ date_toString Stub.all_ok
                              (ValidDate 1762783200000))];
             ESchedule (ValidDate 1762783200000)
               (mkJob Stub.agent Stub.video_config) ]) /\
  run_job (mkJob Stub.agent Stub.video_config) Stub.all_ok []
  = (Return JUndefined, [executing]).
Proof.
  assert (Htype : get_prop Stub.video_config "type" = Return (JStr "video"))
    by reflexivity.
  pose proof (unknown_type_job_does_nothing Stub.agent Stub.video_config
                (JStr "video") (ValidDate 1762783200000) Stub.all_ok []
                Htype
                ltac:(discriminate) ltac:(discriminate) ltac:(discriminate))
    as [Hschedule Hjob].
  split.
  - apply Hschedule. reflexivity.
  - apply (proj1 (Hjob Stub.all_ok [])).
Defined.

(** * Further properties of the code *)

(** ** The requests a Publisher operation can send *)

Lemma body_calls_sent_by this op w r :
  In r (net_calls (snd (run (perform_body this op) w))) ->
  sent_by this w r.
Proof.
  destruct (run (perform_body this op) w) as [out tr] eqn:Hrun.
  cbn [snd]. intros Hin.
  destruct op; unfold_agent; simpl in Hrun;
    repeat (break_in Hrun; simpl in Hrun);
    injection Hrun as <- <-; simpl in Hin;
    repeat match goal with
           | H : _ \/ _ |- _ => destruct H as [<- | H]
           | H : False |- _ => contradiction
           end;
    eauto using sent_by.
Qed.

Lemma perform_calls_sent_by this op w r :
  In r (net_calls (snd (run (perform this op) w))) ->
  sent_by this w r.
Proof.
  intros Hin. apply (body_calls_sent_by this op). revert Hin.
  unfold run. rewrite perform_try_catch. unfold try_catch.
  destruct (perform_body this op w []) as [[v|e] tr0]; trivial.
  rewrite handleError_spec. cbn [snd].
  now rewrite net_calls_app, net_calls_diagnostic, app_nil_r.
Qed.

(** X1: every request a Publisher operation sends, the binary upload
    included, carries the configured access token as its bearer
    authorization. *)
Theorem every_call_carries_the_bearer_token this op w token r :
  accessToken this = Some token ->
  In r (net_calls (snd (run (perform this op) w))) ->
  get_path (req_headers r) ["Authorization"]
  = Return (JStr ("Bearer " ++ token)).
Proof.
  intros Htoken Hin.
  destruct (perform_calls_sent_by _ _ _ _ Hin); simpl;
    unfold template; now rewrite Htoken.
Qed.

Lemma every_call_carries_the_bearer_token_witness :
  get_path
    (req_headers (upload_request Stub.agent (JStr "https://u")
                    (JBuffer [Byte.xff; Byte.xd8; Byte.xff])))
    ["Authorization"]
  = Return (JStr ("Bearer " ++ "tok")).
Proof.
  apply (every_call_carries_the_bearer_token Stub.agent
           (OpPostImage (JStr "caption") (JStr "/tmp/x.jpg") (JStr "PUBLIC"))
           Stub.all_ok "tok").
  - reflexivity.
  - right. left. reflexivity.
Defined.

(** X2: the two header sets are kept apart.  A PUT sent by an operation
    carries exactly the authorization and the octet-stream content type;
    every other request carries exactly the four API headers (authorization,
    JSON content type, protocol version 2.0.0 and the agent's API
    version). *)
Theorem header_sets_by_method this op w r :
  In r (net_calls (snd (run (perform this op) w))) ->
  match req_method r with
  | PUT =>
      req_headers r =
        JObj [ ("Authorization",
                JStr ("Bearer " ++ template (accessToken this)));
               ("Content-Type", JStr "application/octet-stream") ]
  | _ =>
      req_headers r =
        JObj [ ("Authorization",
                JStr ("Bearer " ++ template (accessToken this)));
               ("Content-Type", JStr "application/json");
               ("X-Restli-Protocol-Version", JStr "2.0.0");
               ("LinkedIn-Version", JStr (apiVersion this)) ]
  end.
Proof.
  intros Hin. now destruct (perform_calls_sent_by _ _ _ _ Hin).
Qed.

Lemma header_sets_by_method_witness :
  req_headers (register_request Stub.agent) =
    JObj [ ("Authorization", JStr "Bearer tok");
           ("Content-Type", JStr "application/json");
           ("X-Restli-Protocol-Version", JStr "2.0.0");
           ("LinkedIn-Version", JStr "202311") ].
Proof.
  apply (header_sets_by_method Stub.agent
           (OpPostImage (JStr "caption") (JStr "/tmp/x.jpg") (JStr "PUBLIC"))
           Stub.all_ok (register_request Stub.agent)).
  left. reflexivity.
Defined.

(** X3: an agent built by the constructor contacts three fixed API
    endpoints and nothing else, except for the PUT, which goes to the
    upload URL that the registration call of the same run answered with. *)
Theorem only_known_endpoints_are_contacted env op w r :
  In r (net_calls (snd (run (perform (new_LinkedInAgent env) op) w))) ->
  (req_method r = POST /\
   req_url r = JStr "https://api.linkedin.com/v2/ugcPosts") \/
  (req_method r = POST /\
   req_url r
   = JStr "https://api.linkedin.com/v2/assets?action=registerUpload") \/
  (req_method r = GET /\
   req_url r = JStr "https://api.linkedin.com/v2/me") \/
  (req_method r = PUT /\
   exists r1,
     axios_request w [] (register_request (new_LinkedInAgent env)) = inr r1 /\
     read_uploadUrl (data r1) = Return (req_url r)).
Proof.
  intros Hin.
  destruct (perform_calls_sent_by _ _ _ _ Hin); simpl; eauto 8.
Qed.

Lemma only_known_endpoints_are_contacted_witness :
  req_method (create_post_request Stub.agent
                (textPostData Stub.agent (JStr "hello") PUBLIC)) = POST /\
  req_url (create_post_request Stub.agent
             (textPostData Stub.agent (JStr "hello") PUBLIC))
  = JStr "https://api.linkedin.com/v2/ugcPosts".
Proof.
  destruct (only_known_endpoints_are_contacted
              {| LINKEDIN_ACCESS_TOKEN := Some "tok";
                 LINKEDIN_PERSON_URN := Some "urn:li:person:me" |}
              (OpPostTextUpdate (JStr "hello") PUBLIC) Stub.all_ok
              (create_post_request Stub.agent
                 (textPostData Stub.agent (JStr "hello") PUBLIC)))
    as [H | [[_ H] | [[H _] | [H _]]]].
  - left. reflexivity.
  - exact H.
  - discriminate H.
  - discriminate H.
  - discriminate H.
Defined.

(** ** [getUserProfile] *)

(** X4: with valid credentials [getUserProfile] is one GET of
    [baseURL/me] without a body.  When it is answered the method prints
    the document and returns it, whatever it is (a [null] body too, unlike
    the post methods); when it fails the error is logged and thrown. *)
Theorem getUserProfile_is_one_get this w h :
  valid_config this ->
  req_method (profile_request this) = GET /\
  req_url (profile_request this) = JStr (baseURL this ++ "/me") /\
  req_body (profile_request this) = JUndefined /\
  (forall resp,
      axios_request w h (profile_request this) = inr resp ->
      getUserProfile this w h
      = (Return (data resp),
         h ++ [ ENet (profile_request this);
                ELog [JStr "User Profile:"; data resp] ])) /\
  (forall e,
      axios_request w h (profile_request this) = inl e ->
      getUserProfile this w h
      = (Throw e, h ++ ENet (profile_request this) :: diagnostic e)).
Proof.
  intros Hvalid. repeat split.
  - intros resp Hresp.
    unfold getUserProfile, try_catch, getUserProfile_body, bind.
    rewrite validateConfig_valid by assumption.
    unfold axios. rewrite Hresp. unfold console_log, emit, ret.
    now rewrite <- app_assoc.
  - intros e He.
    unfold getUserProfile, try_catch, getUserProfile_body, bind.
    rewrite validateConfig_valid by assumption.
    unfold axios. rewrite He. rewrite handleError_spec.
    now rewrite <- app_assoc.
Qed.

Lemma getUserProfile_is_one_get_witness :
  getUserProfile Stub.agent Stub.all_ok []
  = (Return (JObj [("id", JStr "abc123")]),
     [] ++ [ ENet (profile_request Stub.agent);
             ELog [JStr "User Profile:"; JObj [("id", JStr "abc123")]] ]).
Proof.
  apply (proj1 (proj2 (proj2 (proj2
           (getUserProfile_is_one_get Stub.agent Stub.all_ok []
              stub_agent_valid))))
           (mkResponse 200 (JObj [("id", JStr "abc123")]))).
  reflexivity.
Defined.

(** ** What the post methods return *)

(** X5: a text post that the API accepts.  When the answer carries a
    document, the method prints the two success lines and returns that
    document unchanged.  When the answer's body is [null] or absent, the
    request has been sent and accepted all the same, but the method then
    fails on reading [id]: the caller sees an error although the post was
    created. *)
Theorem postTextUpdate_accepted this text visibility w h resp :
  valid_config this ->
  axios_request w h
    (create_post_request this
       (textPostData this text (default_param visibility PUBLIC)))
  = inr resp ->
  (forall id,
      get_prop (data resp) "id" = Return id ->
      postTextUpdate this text visibility w h
      = (Return (data resp),
         h ++ [ ENet (create_post_request this
                        (textPostData this text
                           (default_param visibility PUBLIC)));
                ELog [JStr "Successfully posted to LinkedIn!"];
                ELog [JStr "Post ID:"; id] ])) /\
  (data resp = JNull \/ data resp = JUndefined ->
   exists e,
     response e = None /\ request e = false /\
     postTextUpdate this text visibility w h
     = (Throw e,
        h ++ [ ENet (create_post_request this
                       (textPostData this text
                          (default_param visibility PUBLIC)));
               ELog [JStr "Successfully posted to LinkedIn!"];
               EError [JStr "Error:"; JStr (message e)] ])).
Proof.
  intros Hvalid Hresp.
  assert (Hrun : postTextUpdate this text visibility w h
                 = match get_prop (data resp) "id" with
                   | Return id =>
                       (Return (data resp),
                        h ++ [ ENet (create_post_request this
                                       (textPostData this text
                                          (default_param visibility PUBLIC)));
                               ELog [JStr "Successfully posted to LinkedIn!"];
                               ELog [JStr "Post ID:"; id] ])
                   | Throw e =>
                       (Throw e,
                        h ++ [ ENet (create_post_request this
                                       (textPostData this text
                                          (default_param visibility PUBLIC)));
                               ELog [JStr "Successfully posted to LinkedIn!"] ]
                          ++ diagnostic e)
                   end).
  { unfold postTextUpdate, try_catch, postTextUpdate_body, bind.
    rewrite validateConfig_valid by assumption.
    unfold axios. fold PUBLIC. rewrite Hresp.
    unfold console_log, emit, lift, ret.
    destruct (get_prop (data resp) "id") as [id|e].
    - now rewrite <- !app_assoc.
    - rewrite handleError_spec. now rewrite <- !app_assoc. }
  split.
  - intros id Hid. now rewrite Hrun, Hid.
  - intros [Hd | Hd]; rewrite Hrun, Hd; simpl get_prop; cbv iota.
    + exists (TypeError "null" "id"). repeat split.
    + exists (TypeError "undefined" "id"). repeat split.
Qed.

Lemma postTextUpdate_accepted_witness :
  postTextUpdate Stub.agent (JStr "hello") PUBLIC Stub.all_ok []
  = (Return (JObj [("id", JStr "urn:li:share:2")]),
     [] ++ [ ENet (create_post_request Stub.agent
                     (textPostData Stub.agent (JStr "hello")
                        (default_param PUBLIC PUBLIC)));
             ELog [JStr "Successfully posted to LinkedIn!"];
             ELog [JStr "Post ID:"; JStr "urn:li:share:2"] ]).
Proof.
  apply (proj1 (postTextUpdate_accepted Stub.agent (JStr "hello") PUBLIC
                  Stub.all_ok []
                  (mkResponse 201 (JObj [("id", JStr "urn:li:share:2")]))
                  stub_agent_valid eq_refl)).
  reflexivity.
Defined.

(** ** The documents an operation creates posts with *)

Lemma profile_is_not_create this :
  is_create_post this (profile_request this) = false.
Proof. reflexivity. Qed.

Ltac count_created H :=
  unfold created_payloads in H;
  repeat progress
    (cbn [net_calls filter map app] in H;
     rewrite ?register_is_not_create, ?upload_is_not_create,
       ?create_is_create, ?profile_is_not_create in H);
  cbn [req_body create_post_request] in H.

Lemma perform_created_payloads this op w :
  created_payloads this (snd (run (perform this op) w))
  = created_payloads this (snd (run (perform_body this op) w)).
Proof.
  unfold run. rewrite perform_try_catch. unfold try_catch.
  destruct (perform_body this op w []) as [[v|e] tr0]; trivial.
  rewrite handleError_spec. cbn [snd].
  rewrite created_payloads_app.
  now rewrite (created_payloads_quiet _ _ (net_calls_diagnostic e)), app_nil_r.
Qed.

Lemma image_run_created this text imagePath visibility w out tr0 :
  image_run this text imagePath visibility w out tr0 ->
  created_payloads this tr0 = [] \/
  exists r1 uploadUrl asset,
    registered this w r1 uploadUrl asset /\
    created_payloads this tr0
    = [imagePostData this text (default_param visibility PUBLIC) asset].
Proof.
  intros Hrun.
  destruct Hrun; unfold pipeline, upload_of, create_of;
    match goal with
    | |- ?l = [] \/ _ =>
        let H := fresh "H" in
        assert (H : exists x, x = l) by eauto;
        destruct H as [x H]; rewrite <- H; count_created H; subst x
    end; eauto 8.
Qed.

(** Which document each operation creates a post with. *)
Lemma created_payload_origin this op w payload :
  In payload (created_payloads this (snd (run (perform this op) w))) ->
  match op with
  | OpPostTextUpdate text visibility =>
      payload = textPostData this text (default_param visibility PUBLIC)
  | OpPostArticle text url title description visibility =>
      payload = articlePostData this text url title description
                  (default_param visibility PUBLIC)
  | OpPostImage text imagePath visibility =>
      exists r1 uploadUrl asset,
        registered this w r1 uploadUrl asset /\
        payload
        = imagePostData this text (default_param visibility PUBLIC) asset
  | OpGetUserProfile => False
  end.
Proof.
  rewrite perform_created_payloads.
  destruct op as [text vis | text url title description vis
                 | text imagePath vis | ].
  3:{ cbn [perform_body].
      destruct (run (postImage_body this text imagePath vis) w)
        as [out tr0] eqn:Hrun.
      apply postImage_body_run in Hrun. cbn [snd].
      destruct (image_run_created _ _ _ _ _ _ _ Hrun)
        as [-> | (r1 & url & asset & Hreg & ->)].
      - contradiction.
      - intros [<- | []]. eauto. }
  all: destruct (run (perform_body this _) w) as [out tr] eqn:Hrun;
    cbn [snd]; intros Hin;
    unfold_agent; simpl in Hrun;
    repeat (break_in Hrun; simpl in Hrun);
    injection Hrun as <- <-; count_created Hin;
    simpl in Hin;
    repeat match goal with
           | H : _ \/ _ |- _ => destruct H as [<- | H]
           | H : False |- _ => contradiction
           end; reflexivity.
Qed.

(** X6: no operation creates more than one post: in every run at most one
    request reaches the create-post endpoint, and [getUserProfile] sends
    none. *)
Theorem at_most_one_post_per_call this op w :
  length (created_payloads this (snd (run (perform this op) w))) <= 1 /\
  (op = OpGetUserProfile ->
   created_payloads this (snd (run (perform this op) w)) = []).
Proof.
  rewrite perform_created_payloads.
  destruct op as [text vis | text url title description vis
                 | text imagePath vis | ].
  3:{ cbn [perform_body]. split; [|discriminate].
      destruct (run (postImage_body this text imagePath vis) w)
        as [out tr0] eqn:Hrun.
      apply postImage_body_run in Hrun. cbn [snd].
      destruct (image_run_created _ _ _ _ _ _ _ Hrun)
        as [-> | (r1 & url & asset & Hreg & ->)]; simpl; auto. }
  all: destruct (run (perform_body this _) w) as [out tr] eqn:Hrun;
    cbn [snd];
    unfold_agent; simpl in Hrun;
    repeat (break_in Hrun; simpl in Hrun);
    injection Hrun as <- <-;
    match goal with
    | |- length ?l <= 1 /\ _ =>
        let H := fresh "H" in
        assert (H : exists x, x = l) by eauto;
        destruct H as [x H]; rewrite <- H; count_created H; subst x
    end; simpl; split; auto; discriminate.
Qed.

(** X7: the document [postImage] creates the post with has media category
    "IMAGE" and a media list of exactly one entry, with status "READY" and
    the asset of this run's registration; author, lifecycle state and
    commentary are as for the other posts. *)
Theorem postImage_payload this text imagePath visibility w payload :
  In payload
    (created_payloads this
       (snd (run (postImage this text imagePath visibility) w))) ->
  exists r1 uploadUrl asset entry,
    registered this w r1 uploadUrl asset /\
    get_path payload ["author"] = Return (of_env (personURN this)) /\
    get_path payload ["lifecycleState"] = Return (JStr "PUBLISHED") /\
    get_path payload (ShareContent ++ ["shareCommentary"; "text"])
      = Return text /\
    get_path payload (ShareContent ++ ["shareMediaCategory"])
      = Return (JStr "IMAGE") /\
    get_path payload (ShareContent ++ ["media"]) = Return (JArr [entry]) /\
    get_path entry ["status"] = Return (JStr "READY") /\
    get_path entry ["media"] = Return asset.
Proof.
  intros Hin.
  apply (created_payload_origin this
           (OpPostImage text imagePath visibility)) in Hin.
  destruct Hin as (r1 & url & asset & Hreg & ->).
  exists r1, url, asset,
    (JObj [("status", JStr "READY"); ("media", asset)]).
  repeat split; trivial; apply Hreg.
Qed.

Lemma postImage_payload_witness :
  exists r1 uploadUrl asset entry,
    registered Stub.agent Stub.all_ok r1 uploadUrl asset /\
    get_path
      (imagePostData Stub.agent (JStr "caption") PUBLIC
         (JStr "urn:li:digitalmediaAsset:1")) ["author"]
      = Return (of_env (personURN Stub.agent)) /\
    get_path
      (imagePostData Stub.agent (JStr "caption") PUBLIC
         (JStr "urn:li:digitalmediaAsset:1")) ["lifecycleState"]
      = Return (JStr "PUBLISHED") /\
    get_path
      (imagePostData Stub.agent (JStr "caption") PUBLIC
         (JStr "urn:li:digitalmediaAsset:1"))
      (ShareContent ++ ["shareCommentary"; "text"])
      = Return (JStr "caption") /\
    get_path
      (imagePostData Stub.agent (JStr "caption") PUBLIC
         (JStr "urn:li:digitalmediaAsset:1"))
      (ShareContent ++ ["shareMediaCategory"])
      = Return (JStr "IMAGE") /\
    get_path
      (imagePostData Stub.agent (JStr "caption") PUBLIC
         (JStr "urn:li:digitalmediaAsset:1"))
      (ShareContent ++ ["media"]) = Return (JArr [entry]) /\
    get_path entry ["status"] = Return (JStr "READY") /\
    get_path entry ["media"] = Return asset.
Proof.
  apply (postImage_payload Stub.agent (JStr "caption") (JStr "/tmp/x.jpg")
           PUBLIC Stub.all_ok).
  left. reflexivity.
Defined.

(** X8: the visibility default.  When the visibility argument is
    [undefined], every post method puts "PUBLIC" in the visibility block;
    [null] is not defaulted and is sent as it is. *)
Theorem visibility_defaults_to_PUBLIC this w payload :
  let visibility_of p :=
    get_path p ["visibility"; "com.linkedin.ugc.MemberNetworkVisibility"] in
  (forall text v,
      In payload
        (created_payloads this
           (snd (run (postTextUpdate this text v) w))) ->
      (v = JUndefined -> visibility_of payload = Return (JStr "PUBLIC")) /\
      (v = JNull -> visibility_of payload = Return JNull)) /\
  (forall text url title description v,
      In payload
        (created_payloads this
           (snd (run (postArticle this text url title description v) w))) ->
      (v = JUndefined -> visibility_of payload = Return (JStr "PUBLIC")) /\
      (v = JNull -> visibility_of payload = Return JNull)) /\
  (forall text imagePath v,
      In payload
        (created_payloads this
           (snd (run (postImage this text imagePath v) w))) ->
      (v = JUndefined -> visibility_of payload = Return (JStr "PUBLIC")) /\
      (v = JNull -> visibility_of payload = Return JNull)).
Proof.
  intros visibility_of. subst visibility_of. cbv beta.
  split; [|split].
  - intros text v Hin.
    apply (created_payload_origin this (OpPostTextUpdate text v)) in Hin.
    subst payload. split; intros ->; reflexivity.
  - intros text url title description v Hin.
    apply (created_payload_origin this
             (OpPostArticle text url title description v)) in Hin.
    subst payload. split; intros ->; reflexivity.
  - intros text imagePath v Hin.
    apply (created_payload_origin this (OpPostImage text imagePath v)) in Hin.
    destruct Hin as (r1 & url & asset & _ & ->).
    split; intros ->; reflexivity.
Qed.

Lemma visibility_defaults_to_PUBLIC_witness :
  get_path (textPostData Stub.agent (JStr "hello") PUBLIC)
    ["visibility"; "com.linkedin.ugc.MemberNetworkVisibility"]
  = Return (JStr "PUBLIC").
Proof.
  refine (proj1 (proj1 (visibility_defaults_to_PUBLIC Stub.agent Stub.all_ok
                          (textPostData Stub.agent (JStr "hello") PUBLIC))
                   (JStr "hello") JUndefined _) eq_refl).
  left. reflexivity.
Defined.

(** ** What [postImage] does with the registration answer *)

Lemma postImage_unreadable_registration
    this text imagePath visibility w r1 e :
  valid_config this ->
  axios_request w [] (register_request this) = inr r1 ->
  read_uploadUrl (data r1) = Throw e ->
  run (postImage this text imagePath visibility) w
  = (Throw e, [ENet (register_request this)] ++ diagnostic e).
Proof.
  intros Hvalid H1 Hurl.
  unfold run, postImage, try_catch, postImage_body, bind.
  rewrite validateConfig_valid by assumption.
  unfold registerImageUpload, bind, axios, ret, lift. rewrite H1, Hurl.
  now rewrite handleError_spec.
Qed.

(** X9: a 2xx registration answer that lacks [value], or whose [value]
    lacks [uploadMechanism], or whose mechanism lacks the upload-request
    entry, makes [postImage] fail with a local error (logged as "Error:")
    after exactly one network call; the file is never read. *)
Theorem postImage_registration_answer_incomplete
    this text imagePath visibility w r1 :
  valid_config this ->
  axios_request w [] (register_request this) = inr r1 ->
  get_path (data r1) ["value"] = Return JUndefined \/
  get_path (data r1) ["value"; "uploadMechanism"] = Return JUndefined \/
  get_path (data r1)
    ["value"; "uploadMechanism";
     "com.linkedin.digitalmedia.uploading.MediaUploadHttpRequest"]
  = Return JUndefined ->
  exists e,
    response e = None /\ request e = false /\
    run (postImage this text imagePath visibility) w
    = (Throw e,
       [ ENet (register_request this);
         EError [JStr "Error:"; JStr (message e)] ]).
Proof.
  intros Hvalid H1 Hmissing.
  assert (Hthrow : exists key,
             read_uploadUrl (data r1) = Throw (TypeError "undefined" key)).
  { unfold read_uploadUrl. simpl get_path in Hmissing.
    destruct (get_prop (data r1) "value") as [value|e0].
    2:{ destruct Hmissing as [H | [H | H]]; discriminate H. }
    destruct Hmissing as [[= ->] | Hmissing]; [simpl; eauto|].
    destruct (get_prop value "uploadMechanism") as [mechanisms|e0].
    2:{ destruct Hmissing as [H | H]; discriminate H. }
    destruct Hmissing as [[= ->] | Hmissing]; [simpl; eauto|].
    destruct (get_prop mechanisms _) as [mechanism|e0].
    2:{ discriminate Hmissing. }
    injection Hmissing as ->. simpl. eauto. }
  destruct Hthrow as [key Hthrow].
  exists (TypeError "undefined" key). repeat split.
  now rewrite (postImage_unreadable_registration _ _ _ _ _ _ _
                 Hvalid H1 Hthrow).
Qed.

Lemma postImage_registration_answer_incomplete_witness :
  exists e,
    response e = None /\ request e = false /\
    run (postImage Stub.agent (JStr "caption") (JStr "/tmp/x.jpg") PUBLIC)
        Stub.empty_answers
    = (Throw e,
       [ ENet (register_request Stub.agent);
         EError [JStr "Error:"; JStr (message e)] ]).
Proof.
  apply (postImage_registration_answer_incomplete Stub.agent
           (JStr "caption") (JStr "/tmp/x.jpg") PUBLIC Stub.empty_answers
           (mkResponse 200 (JObj []))
           stub_agent_valid eq_refl).
  left. reflexivity.
Defined.

(** X10: the upload URL is not checked.  When the registration answer has
    the upload-request entry but no [uploadUrl] in it, [postImage] goes on:
    it reads the file and sends the PUT with [undefined] as its URL. *)
Theorem postImage_does_not_check_uploadUrl
    this text imagePath visibility w r1 asset bytes :
  registered this w r1 JUndefined asset ->
  file_read this imagePath w bytes ->
  exists rest,
    snd (run (postImage this text imagePath visibility) w)
    = [ ENet (register_request this); EReadFile imagePath;
        ENet (upload_request this JUndefined (JBuffer bytes)) ] ++ rest /\
    req_url (upload_request this JUndefined (JBuffer bytes)) = JUndefined.
Proof.
  intros (Hvalid & H1 & Hurl & Hasset) H2. unfold file_read in H2.
  destruct (run (postImage this text imagePath visibility) w)
    as [out tr] eqn:Hrun.
  apply postImage_run in Hrun. destruct Hrun as (tr0 & Hrun & ->).
  cbn [snd].
  inversion Hrun; subst;
    repeat match goal with
           | H : registered _ _ _ _ _ |- _ => destruct H as (_ & ? & ? & ?)
           | H : uploaded _ _ _ _ _ |- _ => destruct H as (? & _)
           | H : file_read _ _ _ _ |- _ => unfold file_read in H
           end;
    try congruence;
    try (rewrite validateConfig_valid in * by assumption; discriminate);
    (assert (r0 = r1) by congruence; subst r0;
     assert (uploadUrl = JUndefined) by congruence;
     assert (bytes0 = bytes) by congruence; subst;
     unfold pipeline, upload_of, create_of;
     eexists; split; [|reflexivity];
     rewrite <- ?app_assoc; simpl; reflexivity).
Qed.

Lemma postImage_does_not_check_uploadUrl_witness :
  exists rest,
    snd (run (postImage Stub.agent (JStr "caption") (JStr "/tmp/x.jpg")
                PUBLIC) Stub.no_uploadUrl)
    = [ ENet (register_request Stub.agent); EReadFile (JStr "/tmp/x.jpg");
        ENet (upload_request Stub.agent JUndefined
                (JBuffer [Byte.xff; Byte.xd8; Byte.xff])) ] ++ rest /\
    req_url (upload_request Stub.agent JUndefined
               (JBuffer [Byte.xff; Byte.xd8; Byte.xff])) = JUndefined.
Proof.
  apply (postImage_does_not_check_uploadUrl Stub.agent (JStr "caption")
           (JStr "/tmp/x.jpg") PUBLIC Stub.no_uploadUrl
           (mkResponse 200
              (JObj [ ("value", JObj [
                         ("uploadMechanism", JObj [
                            ("com.linkedin.digitalmedia.uploading.MediaUploadHttpRequest",
                             JObj []) ]);
                         ("asset", JStr "urn:li:digitalmediaAsset:1") ]) ]))
           (JStr "urn:li:digitalmediaAsset:1")).
  - split; [exact stub_agent_valid|]. repeat split.
  - reflexivity.
Defined.

(** ** The two upload helpers, called on their own *)

(** X11: [registerImageUpload] does not validate the credentials and does
    not log: called on any agent it sends the registration request, and
    its outcome is the answer's document or the bare error.  On an agent
    without a token the request goes out with "Bearer undefined", and
    without an actor URN its owner is [undefined]. *)
Theorem registerImageUpload_sends_unconditionally this w h :
  snd (registerImageUpload this w h) = h ++ [ENet (register_request this)] /\
  (forall resp,
      axios_request w h (register_request this) = inr resp ->
      fst (registerImageUpload this w h) = Return (data resp)) /\
  (forall e,
      axios_request w h (register_request this) = inl e ->
      fst (registerImageUpload this w h) = Throw e) /\
  (accessToken this = None ->
   get_path (req_headers (register_request this)) ["Authorization"]
   = Return (JStr "Bearer undefined")) /\
  (personURN this = None ->
   get_path (req_body (register_request this))
     ["registerUploadRequest"; "owner"] = Return JUndefined).
Proof.
  unfold registerImageUpload, bind, axios, ret.
  repeat split.
  - now destruct (axios_request w h _).
  - now intros resp ->.
  - now intros e ->.
  - intros Htoken. simpl. now rewrite Htoken.
  - intros Hurn. simpl. now rewrite Hurn.
Qed.

Lemma registerImageUpload_sends_unconditionally_witness :
  get_path (req_headers (register_request Stub.agent_without_token))
    ["Authorization"]
  = Return (JStr "Bearer undefined").
Proof.
  apply (proj1 (proj2 (proj2 (proj2
           (registerImageUpload_sends_unconditionally
              Stub.agent_without_token Stub.all_ok []))))).
  reflexivity.
Defined.

(** X12: [uploadImage] reads the file first.  If the read fails nothing is
    sent and the read error is the outcome; otherwise exactly one PUT goes
    to the given URL with the whole content of the file as its body, and
    the answer is discarded. *)
Theorem uploadImage_reads_then_puts this uploadUrl imagePath w h :
  (forall e,
      readFileSync w h imagePath = inl e ->
      uploadImage this uploadUrl imagePath w h
      = (Throw e, h ++ [EReadFile imagePath])) /\
  (forall bytes,
      readFileSync w h imagePath = inr bytes ->
      snd (uploadImage this uploadUrl imagePath w h)
      = h ++ [ EReadFile imagePath;
               ENet (upload_request this uploadUrl (JBuffer bytes)) ] /\
      req_body (upload_request this uploadUrl (JBuffer bytes))
      = JBuffer bytes /\
      req_url (upload_request this uploadUrl (JBuffer bytes)) = uploadUrl /\
      fst (uploadImage this uploadUrl imagePath w h)
      = match axios_request w (h ++ [EReadFile imagePath])
                (upload_request this uploadUrl (JBuffer bytes)) with
        | inl e => Throw e
        | inr _ => Return tt
        end).
Proof.
  unfold uploadImage, bind, fs_readFileSync, axios, ret. split.
  - now intros e ->.
  - intros bytes ->.
    destruct (axios_request w _ _); rewrite <- app_assoc; repeat split.
Qed.

Lemma uploadImage_reads_then_puts_witness :
  uploadImage Stub.agent (JStr "https://u") (JStr "/tmp/x.jpg")
    Stub.no_file []
  = (Throw Stub.ENOENT, [] ++ [EReadFile (JStr "/tmp/x.jpg")]).
Proof.
  apply (proj1 (uploadImage_reads_then_puts Stub.agent (JStr "https://u")
                  (JStr "/tmp/x.jpg") Stub.no_file [])).
  reflexivity.
Defined.

(** ** Scheduling *)

Lemma run_job_calls job op w h :
  job_operation (job_postConfig job) = Some op ->
  run_job job w h
  = awaited (perform (job_this job) op w (h ++ [executing])).
Proof.
  intros Hop. rewrite run_job_unfold. unfold job_operation in *.
  destruct (get_prop (job_postConfig job) "type"); [|discriminate].
  now rewrite Hop.
Qed.

(** X13: [schedulePost] only announces and registers.  For every agent,
    [postConfig] and time it prints one line, hands the time and the job
    to the timer facility, and ends the way the facility does; it checks
    neither the credentials nor the [postConfig] and sends nothing. *)
Theorem schedulePost_only_registers this postConfig scheduledTime w h :
  let announced :=
    h ++ [ELog [JStr ("Post scheduled for "
                      ++ date_toString w scheduledTime)]] in
  snd (schedulePost this postConfig scheduledTime w h)
  = announced ++ [ESchedule scheduledTime (mkJob this postConfig)] /\
  fst (schedulePost this postConfig scheduledTime w h)
  = match scheduleJob w announced scheduledTime (mkJob this postConfig) with
    | inl e => Throw e
    | inr handle => Return handle
    end /\
  net_calls (snd (schedulePost this postConfig scheduledTime w h))
  = net_calls h.
Proof.
  intros announced. subst announced.
  unfold schedulePost, bind, render_date, console_log, emit,
    schedule_scheduleJob, ret.
  destruct (scheduleJob w _ scheduledTime _); cbn [fst snd];
    rewrite !net_calls_app; simpl; rewrite !app_nil_r; auto.
Qed.

(** X14: missing credentials surface when the job fires, not when it is
    scheduled.  On an agent with a missing or empty token or URN,
    [schedulePost] returns the facility's handle as usual; the job, once
    fired for a text, article or image [postConfig], ends with the
    configuration error after logging it, without any network call. *)
Theorem credentials_are_checked_when_the_job_fires
    this postConfig op scheduledTime w h :
  missing_or_empty (accessToken this) \/ missing_or_empty (personURN this) ->
  job_operation postConfig = Some op ->
  (forall handle,
      scheduleJob w
        (h ++ [ELog [JStr ("Post scheduled for "
                           ++ date_toString w scheduledTime)]])
        scheduledTime (mkJob this postConfig) = inr handle ->
      fst (schedulePost this postConfig scheduledTime w h)
      = Return handle) /\
  (forall w' h',
      exists msg,
        (msg = "LINKEDIN_ACCESS_TOKEN is not set in .env file" \/
         msg = "LINKEDIN_PERSON_URN is not set in .env file") /\
        run_job (mkJob this postConfig) w' h'
        = (Throw (Error msg),
           h' ++ [executing; EError [JStr "Error:"; JStr msg]])).
Proof.
  intros Hbad Hop. split.
  - intros handle Hhandle.
    unfold schedulePost, bind, render_date, console_log, emit,
      schedule_scheduleJob, ret.
    now rewrite Hhandle.
  - intros w' h'.
    destruct (validateConfig_invalid this w' (h' ++ [executing]) Hbad)
      as (msg & Hv & Hmsg).
    exists msg. split; trivial.
    rewrite (run_job_calls (mkJob this postConfig) op) by assumption.
    cbn [job_this].
    rewrite perform_try_catch. unfold try_catch.
    rewrite (perform_body_starts_with_validateConfig _ _ _ _ _ Hv).
    rewrite handleError_spec. cbn [awaited].
    now rewrite <- app_assoc.
Qed.

Lemma credentials_are_checked_when_the_job_fires_witness :
  exists msg,
    (msg = "LINKEDIN_ACCESS_TOKEN is not set in .env file" \/
     msg = "LINKEDIN_PERSON_URN is not set in .env file") /\
    run_job
      (mkJob Stub.agent_without_token
         (JObj [("type", JStr "text"); ("text", JStr "later")]))
      Stub.all_ok []
    = (Throw (Error msg),
       [] ++ [executing; EError [JStr "Error:"; JStr msg]]).
Proof.
  apply (proj2 (credentials_are_checked_when_the_job_fires
                  Stub.agent_without_token
                  (JObj [("type", JStr "text"); ("text", JStr "later")])
                  (OpPostTextUpdate (JStr "later") JUndefined)
                  (ValidDate 1762783200000) Stub.all_ok []
                  (or_introl (or_introl eq_refl)) eq_refl)).
Defined.

(** X15: a job scheduled with [null] or [undefined] as its [postConfig]
    fails when it fires, on reading [type]: it has printed its opening line
    and nothing else; the error passes through no handler, so it is not
    logged, and nothing is sent. *)
Theorem job_without_postConfig_fails_unlogged this postConfig w h :
  postConfig = JNull \/ postConfig = JUndefined ->
  exists e,
    response e = None /\ request e = false /\
    run_job (mkJob this postConfig) w h = (Throw e, h ++ [executing]).
Proof.
  intros [-> | ->]; rewrite run_job_unfold; simpl.
  - exists (TypeError "null" "type"). repeat split.
  - exists (TypeError "undefined" "type"). repeat split.
Qed.

Lemma job_without_postConfig_fails_unlogged_witness :
  exists e,
    response e = None /\ request e = false /\
    run_job (mkJob Stub.agent JNull) Stub.all_ok []
    = (Throw e, [] ++ [executing]).
Proof.
  apply (job_without_postConfig_fails_unlogged Stub.agent JNull
           Stub.all_ok []).
  left. reflexivity.
Defined.

(** X16: a fired job whose type tag is "text" posts what its [postConfig]
    holds: its one network call creates a post with the config's [text]
    and its [visibility], "PUBLIC" when the config has none.  The job
    returns nothing: the created post's document is dropped. *)
Theorem text_job_posts_its_config this postConfig w h :
  valid_config this ->
  get_prop postConfig "type" = Return (JStr "text") ->
  exists payload rest,
    snd (run_job (mkJob this postConfig) w h)
    = h ++ executing :: ENet (create_post_request this payload) :: rest /\
    net_calls rest = [] /\
    get_path payload (ShareContent ++ ["shareCommentary"; "text"])
    = Return (field postConfig "text") /\
    (field postConfig "visibility" = JUndefined ->
     get_path payload
       ["visibility"; "com.linkedin.ugc.MemberNetworkVisibility"]
     = Return (JStr "PUBLIC")) /\
    (field postConfig "visibility" <> JUndefined ->
     get_path payload
       ["visibility"; "com.linkedin.ugc.MemberNetworkVisibility"]
     = Return (field postConfig "visibility")) /\
    (forall v tr,
        run_job (mkJob this postConfig) w h = (Return v, tr) ->
        v = JUndefined).
Proof.
  intros Hvalid Htype.
  assert (Hop : job_operation (job_postConfig (mkJob this postConfig))
                = Some (OpPostTextUpdate (field postConfig "text")
                          (field postConfig "visibility"))).
  { cbn [job_postConfig]. unfold job_operation. now rewrite Htype. }
  rewrite (run_job_calls _ _ w h Hop). cbn [job_this perform].
  destruct (postTextUpdate_trace this (field postConfig "text")
              (field postConfig "visibility") w (h ++ [executing]) Hvalid)
    as (rest & Htrace & Hquiet).
  exists (textPostData this (field postConfig "text")
            (default_param (field postConfig "visibility") PUBLIC)), rest.
  destruct (postTextUpdate this _ _ w (h ++ [executing])) as [[v0|e0] tr0];
    cbn [snd awaited] in *; subst tr0; rewrite <- app_assoc;
    (repeat split; trivial;
     [ now intros -> | now destruct (field postConfig "visibility")
     | try congruence ]).
Qed.

Lemma text_job_posts_its_config_witness :
  exists payload rest,
    snd (run_job Stub.job_later Stub.all_ok [])
    = [] ++ executing :: ENet (create_post_request Stub.agent payload)
         :: rest /\
    net_calls rest = [] /\
    get_path payload (ShareContent ++ ["shareCommentary"; "text"])
    = Return (JStr "later") /\
    (field (job_postConfig Stub.job_later) "visibility" = JUndefined ->
     get_path payload
       ["visibility"; "com.linkedin.ugc.MemberNetworkVisibility"]
     = Return (JStr "PUBLIC")) /\
    (field (job_postConfig Stub.job_later) "visibility" <> JUndefined ->
     get_path payload
       ["visibility"; "com.linkedin.ugc.MemberNetworkVisibility"]
     = Return (field (job_postConfig Stub.job_later) "visibility")) /\
    (forall v tr,
        run_job Stub.job_later Stub.all_ok [] = (Return v, tr) ->
        v = JUndefined).
Proof.
  exact (text_job_posts_its_config Stub.agent
           (job_postConfig Stub.job_later) Stub.all_ok []
           stub_agent_valid eq_refl).
Defined.

(** ** The order of the credential checks *)

(** X17: the token is checked before the actor URN.  Whenever the token is
    missing or empty an operation fails with the token's message, also
    when the URN is missing too; the URN's message appears only when the
    token is present. *)
Theorem token_is_checked_before_the_URN this op w h :
  (missing_or_empty (accessToken this) ->
   fst (perform this op w h)
   = Throw (Error "LINKEDIN_ACCESS_TOKEN is not set in .env file")) /\
  (~ missing_or_empty (accessToken this) ->
   missing_or_empty (personURN this) ->
   fst (perform this op w h)
   = Throw (Error "LINKEDIN_PERSON_URN is not set in .env file")).
Proof.
  split.
  - intros Ht. apply truthy_env_false in Ht.
    assert (Hv : validateConfig this w h
                 = (Throw (Error "LINKEDIN_ACCESS_TOKEN is not set in .env file"),
                    h))
      by (unfold validateConfig; now rewrite Ht).
    rewrite perform_try_catch. unfold try_catch.
    rewrite (perform_body_starts_with_validateConfig _ _ _ _ _ Hv).
    now rewrite handleError_spec.
  - intros Ht Hu. apply truthy_env_true in Ht. apply truthy_env_false in Hu.
    assert (Hv : validateConfig this w h
                 = (Throw (Error "LINKEDIN_PERSON_URN is not set in .env file"),
                    h))
      by (unfold validateConfig; now rewrite Ht, Hu).
    rewrite perform_try_catch. unfold try_catch.
    rewrite (perform_body_starts_with_validateConfig _ _ _ _ _ Hv).
    now rewrite handleError_spec.
Qed.

Lemma token_is_checked_before_the_URN_witness :
  fst (perform (new_LinkedInAgent (mkEnv (Some "") None)) OpGetUserProfile
         Stub.all_ok [])
  = Throw (Error "LINKEDIN_ACCESS_TOKEN is not set in .env file").
Proof.
  apply (proj1 (token_is_checked_before_the_URN
                  (new_LinkedInAgent (mkEnv (Some "") None))
                  OpGetUserProfile Stub.all_ok [])).
  right. reflexivity.
Defined.

(** ** The commands *)

Lemma negb_truthy_missing (v : option string) :
  missing_or_empty v -> negb (truthy_env v) = true.
Proof. intros H. apply truthy_env_false in H. now rewrite H. Qed.

Lemma negb_truthy_present (v : option string) :
  ~ missing_or_empty v -> negb (truthy_env v) = false.
Proof. intros H. apply truthy_env_true in H. now rewrite H. Qed.

(** X18: a command whose required flag is missing or empty exits with
    status 1 after printing one error line.  This comes before the agent
    is built: no credential is looked at, nothing is sent, read or
    scheduled, whatever the environment holds. *)
Theorem missing_flag_exits_first Date_parse env cmd options w h :
  lacks_required_flag cmd options ->
  exists msg,
    run_command Date_parse env cmd options w h
    = (Exited 1, h ++ [EError [JStr msg]]).
Proof.
  destruct cmd; cbn [lacks_required_flag run_command];
    unfold cli_post, cli_post_article, cli_post_image, cli_schedule.
  - intros H. rewrite (negb_truthy_missing _ H). eexists. reflexivity.
  - intros [H | [H | H]]; rewrite (negb_truthy_missing _ H),
      ?orb_true_r; eexists; reflexivity.
  - intros [H | H]; rewrite (negb_truthy_missing _ H), ?orb_true_r;
      eexists; reflexivity.
  - contradiction.
  - intros [H | H]; rewrite (negb_truthy_missing _ H), ?orb_true_r;
      eexists; reflexivity.
Qed.

Lemma missing_flag_exits_first_witness :
  exists msg,
    run_command (fun _ => InvalidDate)
      (mkEnv (Some "tok") (Some "urn:li:person:me")) CmdPostArticle
      (mkOptions (Some "Great article!") (Some "PUBLIC") None
                 (Some "Article Title") None None None)
      Stub.all_ok []
    = (Exited 1, [] ++ [EError [JStr msg]]).
Proof.
  apply missing_flag_exits_first.
  right. left. left. reflexivity.
Defined.

(** X19: with its required flags present and a credential missing from
    the environment, each of [post], [post-article], [post-image] and
    [profile] ends with the action's promise rejected by the configuration
    error, which has been logged once; the command does not call
    [process.exit] and sends nothing. *)
Theorem command_without_credentials_is_rejected
    Date_parse env cmd options w h :
  cmd <> CmdSchedule ->
  ~ lacks_required_flag cmd options ->
  missing_or_empty (LINKEDIN_ACCESS_TOKEN env) \/
  missing_or_empty (LINKEDIN_PERSON_URN env) ->
  exists msg,
    (msg = "LINKEDIN_ACCESS_TOKEN is not set in .env file" \/
     msg = "LINKEDIN_PERSON_URN is not set in .env file") /\
    run_command Date_parse env cmd options w h
    = (Settled (Throw (Error msg)),
       h ++ [EError [JStr "Error:"; JStr msg]]).
Proof.
  intros Hcmd Hflags Hbad.
  destruct (validateConfig_invalid (new_LinkedInAgent env) w h Hbad)
    as (msg & Hv & Hmsg).
  exists msg. split; trivial.
  assert (Hop : forall op,
             settle (perform (new_LinkedInAgent env) op) w h
             = (Settled (Throw (Error msg)),
                h ++ [EError [JStr "Error:"; JStr msg]])).
  { intros op. unfold settle. rewrite perform_try_catch. unfold try_catch.
    rewrite (perform_body_starts_with_validateConfig _ _ _ _ _ Hv).
    now rewrite handleError_spec. }
  destruct cmd; cbn [lacks_required_flag run_command] in *;
    unfold cli_post, cli_post_article, cli_post_image, cli_profile.
  - rewrite (negb_truthy_present _ Hflags).
    apply (Hop (OpPostTextUpdate _ _)).
  - rewrite !negb_truthy_present by tauto. cbn [orb].
    apply (Hop (OpPostArticle _ _ _ _ _)).
  - rewrite !negb_truthy_present by tauto. cbn [orb].
    apply (Hop (OpPostImage _ _ _)).
  - apply (Hop OpGetUserProfile).
  - contradiction.
Qed.

Lemma command_without_credentials_is_rejected_witness :
  exists msg,
    (msg = "LINKEDIN_ACCESS_TOKEN is not set in .env file" \/
     msg = "LINKEDIN_PERSON_URN is not set in .env file") /\
    run_command (fun _ => InvalidDate) (mkEnv None None) CmdProfile
      (mkOptions None None None None None None None) Stub.all_ok []
    = (Settled (Throw (Error msg)),
       [] ++ [EError [JStr "Error:"; JStr msg]]).
Proof.
  apply command_without_credentials_is_rejected.
  - discriminate.
  - intros H. exact H.
  - left. left. reflexivity.
Defined.

(** X20: [post-article] sends the empty string as the article description
    when [--description] is missing or empty, and the given description
    otherwise; text, URL and title are the flags' values. *)
Theorem post_article_description_defaults_to_empty env options w h :
  valid_config (new_LinkedInAgent env) ->
  ~ lacks_required_flag CmdPostArticle options ->
  exists payload entry rest,
    snd (cli_post_article env options w h)
    = h ++ ENet (create_post_request (new_LinkedInAgent env) payload)
        :: rest /\
    get_path payload (ShareContent ++ ["media"]) = Return (JArr [entry]) /\
    get_path entry ["originalUrl"] = Return (of_env (opt_url options)) /\
    get_path entry ["title"; "text"] = Return (of_env (opt_title options)) /\
    (missing_or_empty (opt_description options) ->
     get_path entry ["description"; "text"] = Return (JStr "")) /\
    (~ missing_or_empty (opt_description options) ->
     get_path entry ["description"; "text"]
     = Return (of_env (opt_description options))).
Proof.
  intros Hvalid Hflags. cbn [lacks_required_flag] in Hflags.
  unfold cli_post_article.
  rewrite !negb_truthy_present by tauto. cbn [orb].
  destruct (postArticle_trace (new_LinkedInAgent env)
              (of_env (opt_text options)) (of_env (opt_url options))
              (of_env (opt_title options))
              (or_empty (opt_description options))
              (of_env (opt_visibility options)) w h Hvalid)
    as (rest & Htrace & _).
  eexists. eexists. exists rest. split.
  - unfold settle.
    destruct (postArticle _ _ _ _ _ _ w h) as [[v|e] tr];
      cbn [snd] in *; exact Htrace.
  - repeat split; try reflexivity; intros Hd; cbn; unfold or_empty.
    + apply truthy_env_false in Hd. now rewrite Hd.
    + apply truthy_env_true in Hd. now rewrite Hd.
Qed.

Lemma post_article_description_defaults_to_empty_witness :
  exists payload entry rest,
    snd (cli_post_article (mkEnv (Some "tok") (Some "urn:li:person:me"))
           (mkOptions (Some "Must-read article!") (Some "PUBLIC")
              (Some "https://example.com/article") (Some "Amazing Article")
              None None None)
           Stub.all_ok [])
    = [] ++ ENet (create_post_request Stub.agent payload) :: rest /\
    get_path payload (ShareContent ++ ["media"]) = Return (JArr [entry]) /\
    get_path entry ["originalUrl"]
    = Return (of_env (Some "https://example.com/article")) /\
    get_path entry ["title"; "text"]
    = Return (of_env (Some "Amazing Article")) /\
    (missing_or_empty None ->
     get_path entry ["description"; "text"] = Return (JStr "")) /\
    (~ missing_or_empty None ->
     get_path entry ["description"; "text"] = Return (of_env None)).
Proof.
  apply (post_article_description_defaults_to_empty
           (mkEnv (Some "tok") (Some "urn:li:person:me"))
           (mkOptions (Some "Must-read article!") (Some "PUBLIC")
              (Some "https://example.com/article") (Some "Amazing Article")
              None None None)
           Stub.all_ok [] stub_agent_valid).
  intros [H | [H | H]]; destruct H; discriminate.
Defined.

(** X21: [schedule] with its flags present.  A time the host's parser
    rejects ends the command with status 1 and nothing registered.  A
    parsed time is handed to the timer facility together with a text job
    carrying the flags' text and visibility; with the job registered the
    command prints its notice and keeps the process alive.  Nothing is
    sent at this point and the credentials are not consulted. *)
Theorem schedule_command_registers_a_text_job
    Date_parse env options time w h :
  ~ missing_or_empty (opt_text options) ->
  opt_time options = Some time -> time <> "" ->
  (Date_parse time = InvalidDate ->
   cli_schedule env options Date_parse w h
   = (Exited 1,
      h ++ [EError [JStr ("Error: Invalid datetime format. "
                          ++ "Use ISO 8601 format.")]])) /\
  (forall ms handle,
      Date_parse time = ValidDate ms ->
      scheduleJob w
        (h ++ [ELog [JStr ("Post scheduled for "
                           ++ date_toString w (ValidDate ms))]])
        (ValidDate ms)
        (mkJob (new_LinkedInAgent env) (cli_postConfig options))
      = inr handle ->
      cli_schedule env options Date_parse w h
      = (KeptAlive,
         h ++ [ ELog [JStr ("Post scheduled for "
                            ++ date_toString w (ValidDate ms))];
                ESchedule (ValidDate ms)
                  (mkJob (new_LinkedInAgent env) (cli_postConfig options));
                ELog [JStr ("Scheduled post will run in the background. "
                            ++ "Keep this process running.")] ]) /\
      job_operation (cli_postConfig options)
      = Some (OpPostTextUpdate (of_env (opt_text options))
                               (of_env (opt_visibility options)))).
Proof.
  intros Htext Htime Hne.
  assert (Ht : negb (truthy_env (opt_time options)) = false).
  { apply negb_truthy_present. rewrite Htime. intros [H | H]; congruence. }
  unfold cli_schedule. rewrite (negb_truthy_present _ Htext), Ht.
  cbn [orb]. rewrite Htime. cbn [template]. split.
  - now intros ->.
  - intros ms handle -> Hhandle. split; [|reflexivity].
    unfold schedulePost, bind, render_date, console_log, emit,
      schedule_scheduleJob, ret.
    rewrite Hhandle. now rewrite <- !app_assoc.
Qed.

Lemma schedule_command_registers_a_text_job_witness :
  cli_schedule (mkEnv None None)
    (mkOptions (Some "This post is scheduled!") (Some "PUBLIC") None None
               None None (Some "not a date"))
    (fun _ => InvalidDate) Stub.all_ok []
  = (Exited 1,
     [] ++ [EError [JStr ("Error: Invalid datetime format. "
                          ++ "Use ISO 8601 format.")]]).
Proof.
  apply (proj1 (schedule_command_registers_a_text_job
                  (fun _ => InvalidDate) (mkEnv None None)
                  (mkOptions (Some "This post is scheduled!") (Some "PUBLIC")
                     None None None None (Some "not a date"))
                  "not a date" Stub.all_ok []
                  ltac:(intros [H | H]; discriminate H)
                  eq_refl ltac:(discriminate))).
  reflexivity.
Defined.

(** ** The example wrappers *)

(** X22: the wrappers [postSimpleUpdate], [postArticleExample] and
    [postImageExample] never throw.  Each prints its banner and makes its
    call; when the call fails, the error (already logged by the agent) is
    reported once more on one line with its message and then dropped, and
    the wrapper returns normally. *)
Theorem example_wrappers_swallow_failures agent ex w h :
  (exists tr, run_example agent ex w h = (Return JUndefined, tr)) /\
  (forall e tr,
      example_call agent ex w (h ++ [example_banner ex]) = (Throw e, tr) ->
      run_example agent ex w h
      = (Return JUndefined, tr ++ [example_failure_line ex e])) /\
  (forall v tr,
      example_call agent ex w (h ++ [example_banner ex]) = (Return v, tr) ->
      run_example agent ex w h = (Return JUndefined, tr)).
Proof.
  assert (Hrun : run_example agent ex w h
                 = match example_call agent ex w (h ++ [example_banner ex])
                   with
                   | (Return _, tr) => (Return JUndefined, tr)
                   | (Throw e, tr) =>
                       (Return JUndefined, tr ++ [example_failure_line ex e])
                   end).
  { destruct ex; cbn [run_example example_call example_banner
                        example_failure_line];
      unfold postSimpleUpdate, postArticleExample, postImageExample,
        try_catch, bind, console_log, console_error, emit, ret;
      match goal with
      | |- context [match ?c with _ => _ end] =>
          lazymatch c with
          | context [match _ with _ => _ end] => fail
          | _ => destruct c as [[v|e] tr]
          end
      end; reflexivity. }
  rewrite Hrun.
  destruct (example_call agent ex w (h ++ [example_banner ex]))
    as [[v|e] tr].
  - split; [eauto|]. split.
    + intros e0 tr0 H. discriminate H.
    + now intros v0 tr0 [= <- <-].
  - split; [eauto|]. split.
    + now intros e0 tr0 [= <- <-].
    + intros v0 tr0 H. discriminate H.
Qed.

Lemma example_wrappers_swallow_failures_witness :
  run_example Stub.agent_without_token Example1 Stub.all_ok []
  = (Return JUndefined,
     [ example_banner Example1;
       EError [JStr "Error:";
               JStr "LINKEDIN_ACCESS_TOKEN is not set in .env file"] ]
     ++ [ example_failure_line Example1
            (Error "LINKEDIN_ACCESS_TOKEN is not set in .env file") ]).
Proof.
  apply (proj1 (proj2 (example_wrappers_swallow_failures
                         Stub.agent_without_token Example1 Stub.all_ok []))).
  reflexivity.
Defined.

(** ** A successful image post *)

(** X23: when registration, file read, upload and post creation all
    succeed and the created document can be read, [postImage] returns that
    document; its events are the registration, the file read, the PUT of
    the file's bytes to the registered upload URL, the creation of the
    post with the registered asset, and the two success lines, in this
    order and nothing else. *)
Theorem postImage_success
    this text imagePath visibility w r1 uploadUrl asset bytes r3 id :
  registered this w r1 uploadUrl asset ->
  uploaded this imagePath w uploadUrl bytes ->
  axios_request w
    [ ENet (register_request this); EReadFile imagePath;
      ENet (upload_request this uploadUrl (JBuffer bytes)) ]
    (create_post_request this
       (imagePostData this text (default_param visibility PUBLIC) asset))
  = inr r3 ->
  get_prop (data r3) "id" = Return id ->
  run (postImage this text imagePath visibility) w
  = (Return (data r3),
     [ ENet (register_request this);
       EReadFile imagePath;
       ENet (upload_request this uploadUrl (JBuffer bytes));
       ENet (create_post_request this
               (imagePostData this text (default_param visibility PUBLIC)
                  asset));
       ELog [JStr "Successfully posted image to LinkedIn!"];
       ELog [JStr "Post ID:"; id] ]).
Proof.
  intros (Hvalid & H1 & Hurl & Hasset) (H2 & r2 & H3) H4 Hid.
  unfold file_read in H2.
  unfold run, postImage, try_catch, postImage_body, bind.
  rewrite validateConfig_valid by assumption.
  unfold registerImageUpload, bind, axios, ret, lift.
  rewrite H1, Hurl, Hasset. cbn [app].
  unfold uploadImage, bind, fs_readFileSync, axios, ret.
  rewrite H2. cbn [app]. rewrite H3. cbn [app].
  fold PUBLIC. rewrite H4.
  unfold console_log, emit. rewrite Hid. reflexivity.
Qed.

Lemma postImage_success_witness :
  run (postImage Stub.agent (JStr "caption") (JStr "/tmp/x.jpg") PUBLIC)
      Stub.all_ok
  = (Return (JObj [("id", JStr "urn:li:share:2")]),
     [ ENet (register_request Stub.agent);
       EReadFile (JStr "/tmp/x.jpg");
       ENet (upload_request Stub.agent (JStr "https://u")
               (JBuffer [Byte.xff; Byte.xd8; Byte.xff]));
       ENet (create_post_request Stub.agent
               (imagePostData Stub.agent (JStr "caption")
                  (default_param PUBLIC PUBLIC)
                  (JStr "urn:li:digitalmediaAsset:1")));
       ELog [JStr "Successfully posted image to LinkedIn!"];
       ELog [JStr "Post ID:"; JStr "urn:li:share:2"] ]).
Proof.
  apply (postImage_success Stub.agent (JStr "caption") (JStr "/tmp/x.jpg")
           PUBLIC Stub.all_ok
           (mkResponse 200
              (Stub.registration (JStr "https://u")
                 (JStr "urn:li:digitalmediaAsset:1")))
           (JStr "https://u") (JStr "urn:li:digitalmediaAsset:1")
           [Byte.xff; Byte.xd8; Byte.xff]
           (mkResponse 201 (JObj [("id", JStr "urn:li:share:2")]))
           (JStr "urn:li:share:2")).
  - split; [exact stub_agent_valid|]. repeat split.
  - split; [reflexivity|]. eexists. reflexivity.
  - reflexivity.
  - reflexivity.
Defined.
